(** * LedFx configuration endpoint: [ledfx/api/config.py]

    A shallow embedding of the configuration mutation code of the REST
    endpoint [/api/config]: the trimming validator
    [validate_and_trim_config], the merge engine [update_config], the restart
    classifier [check_need_restart] and the handlers [put], [post] and
    [delete], followed by the properties proved about them.

    Python values are the JSON values a request body parses to.  Dictionaries
    keep their insertion order (the order decides which key an error names),
    so they are association lists read by first match.  Exceptions are values
    of [exn]; code that may raise returns a [result]; code that also acts on
    the service object runs in a state-and-exception monad [M].

    Values are trees: an object reachable from the live configuration is
    shared with nothing else, so an in-place [update] of a nested mapping is
    the rebuilt tree.  The one object whose identity matters, the mapping a
    handler passes to [update_config] and goes on using, is threaded through
    explicitly. *)

From Stdlib Require Import String List ZArith Bool Lia.
Import ListNotations.
Open Scope string_scope.

(** ** Values *)

#[warnings="-register-all"] Inductive value : Type :=
| VNull
| VBool (b : bool)
| VInt (n : Z)
| VFloat (bits : Z)            (* IEEE-754 binary64 bit pattern *)
| VStr (s : string)
| VList (items : list value)
| VDict (entries : list (string * value)).

Definition dict := list (string * value).

(** ** Exceptions and results *)

Inductive exn : Type :=
| KeyError (arg : string)
| AssertionError
| AttributeError
| TypeError
| ValueError
| JSONDecodeError
| MultipleInvalid (msg : string)          (* voluptuous *)
| OtherException (name msg : string).

Inductive result (A : Type) : Type :=
| Ok (a : A)
| Raise (e : exn).
Arguments Ok {A} a.
Arguments Raise {A} e.

Definition rbind {A B} (r : result A) (k : A -> result B) : result B :=
  match r with
  | Ok a => k a
  | Raise e => Raise e
  end.

Declare Scope result_scope.
Delimit Scope result_scope with result.
Notation "'let?' x ':=' r 'in' k" := (rbind r (fun x => k))
  (at level 10, x name, r at level 100, k at level 200) : result_scope.
Open Scope result_scope.

Definition raises {A} (r : result A) : Prop := exists e, r = Raise e.

Definition is_ok {A} (r : result A) : bool :=
  match r with Ok _ => true | Raise _ => false end.

(** ** Dictionaries: [dict] methods used by the module *)

Module Dict.

Definition keys (d : dict) : list string := map fst d.

(* d.get(k) / d[k] *)
Fixpoint get (k : string) (d : dict) : option value :=
  match d with
  | [] => None
  | (k', v) :: d' => if String.eqb k k' then Some v else get k d'
  end.

(* k in d *)
Definition mem (k : string) (d : dict) : bool :=
  match get k d with Some _ => true | None => false end.

(* d[k] = v : an existing key keeps its place, a new key goes last *)
Fixpoint set (k : string) (v : value) (d : dict) : dict :=
  match d with
  | [] => [(k, v)]
  | (k', v') :: d' =>
      if String.eqb k k' then (k', v) :: d' else (k', v') :: set k v d'
  end.

(* del d[k] *)
Definition remove (k : string) (d : dict) : dict :=
  filter (fun kv => negb (String.eqb k (fst kv))) d.

(* d.pop(k, default) : the value handed back, and d afterwards *)
Definition pop (k : string) (default : value) (d : dict) : value * dict :=
  match get k d with
  | Some v => (v, remove k d)
  | None => (default, d)
  end.

(* d.update(other), other a mapping *)
Definition update (d other : dict) : dict :=
  fold_left (fun acc kv => set (fst kv) (snd kv) acc) other d.

(* bool(d) *)
Definition truthy (d : dict) : bool :=
  match d with [] => false | _ :: _ => true end.

End Dict.

(* k in keys, for a tuple/list/set of strings *)
Definition str_in (k : string) (ks : list string) : bool :=
  existsb (String.eqb k) ks.

(** ** Operations on values that may raise *)

(* v[k] with k a string *)
Definition getitem (v : value) (k : string) : result value :=
  match v with
  | VDict d =>
      match Dict.get k d with
      | Some x => Ok x
      | None => Raise (KeyError k)
      end
  | _ => Raise TypeError
  end.

(* v[k] = x with k a string *)
Definition setitem (v : value) (k : string) (x : value) : result value :=
  match v with
  | VDict d => Ok (VDict (Dict.set k x d))
  | _ => Raise TypeError
  end.

(* k in v.  On a list or a string the test itself succeeds; the two places
   that use it subscript v by the string k right after, on either branch and
   before any write, which is a TypeError on both. *)
Definition contains (v : value) (k : string) : result bool :=
  match v with
  | VDict d => Ok (Dict.mem k d)
  | _ => Raise TypeError
  end.

(* v.keys() *)
Definition keys_of (v : value) : result (list string) :=
  match v with
  | VDict d => Ok (Dict.keys d)
  | _ => Raise AttributeError
  end.

(* v.pop(k, default) *)
Definition pop_of (v : value) (k : string) (default : value)
  : result (value * value) :=
  match v with
  | VDict d => let (x, d') := Dict.pop k default d in Ok (x, VDict d')
  | VList _ => Raise TypeError
  | _ => Raise AttributeError
  end.

(* dict.update(arg) reads its argument as a mapping or as an iterable of
   key/value pairs.  One element of such an iterable must be a sequence of
   length 2 (a list, a str of two characters, a dict of two keys, which
   iterates as its keys) whose first item is hashable; anything else that is
   iterable is a ValueError, anything else a TypeError, and so is a key that
   is a list or a dict.  The str of the model is the sequence of its
   characters.

   A key that is hashable but not a str (None, a bool, a number) answers
   None here.  Python stores the pair under that key; every subscript,
   membership test and pop of the module is by a str, so no code of the
   module can reach such an entry, and a dict of the model holds the entries
   under str keys only. *)
Definition pair_of (item : value) : result (option (string * value)) :=
  match item with
  | VList [k; v] =>
      match k with
      | VStr s => Ok (Some (s, v))
      | VList _ => Raise TypeError
      | VDict _ => Raise TypeError
      | _ => Ok None
      end
  | VList _ => Raise ValueError
  | VStr (String c0 (String c1 EmptyString)) =>
      Ok (Some (String c0 EmptyString, VStr (String c1 EmptyString)))
  | VStr _ => Raise ValueError
  | VDict [(k0, _); (k1, _)] => Ok (Some (k0, VStr k1))
  | VDict _ => Raise ValueError
  | _ => Raise TypeError
  end.

(* The pairs are written one by one: what was written before a bad element
   stays written.  The dict afterwards, and the exception if one is raised. *)
Fixpoint update_pairs (d : dict) (items : list value) : dict * option exn :=
  match items with
  | [] => (d, None)
  | item :: items' =>
      match pair_of item with
      | Ok (Some (k, v)) => update_pairs (Dict.set k v d) items'
      | Ok None => update_pairs d items'
      | Raise e => (d, Some e)
      end
  end.

(* d.update(arg): a str is iterated by character, so every str but the empty
   one fails at its first element; None, a bool or a number is not iterable *)
Definition dict_update (d : dict) (arg : value) : dict * option exn :=
  match arg with
  | VDict other => (Dict.update d other, None)
  | VList items => update_pairs d items
  | VStr EmptyString => (d, None)
  | VStr _ => (d, Some ValueError)
  | _ => (d, Some TypeError)
  end.

(* target.update(arg).  The attribute is looked up first, so a target that is
   not a dict is an AttributeError whatever the argument.  Otherwise the call
   runs on the target in place: the target afterwards, and the exception the
   call ends with, if any. *)
Definition update_of (target arg : value) : result (value * option exn) :=
  match target with
  | VDict d => Ok (VDict (fst (dict_update d arg)), snd (dict_update d arg))
  | _ => Raise AttributeError
  end.

(** ** Collaborators imported by the module

    [ledfx.api.utils], [ledfx.config], [ledfx.consts], [ledfx.effects.audio]
    and [ledfx.effects.melbank] are other modules; what this file imports
    from them is taken as a parameter.  A voluptuous schema is called on a
    value and returns the validated value or raises. *)

Definition schema := value -> result value.

(* what parse_version returns; the module only compares two of them with == *)
Definition Version := list Z.

Record Collaborators : Type := {
  (* PERMITTED_KEYS[node], for the four node names the module passes *)
  PERMITTED_KEYS : string -> list string;
  CORE_CONFIG_KEYS_NO_RESTART : list string;
  CORE_CONFIG_SCHEMA : schema;
  WLED_CONFIG_SCHEMA : schema;
  AUDIO_CONFIG_SCHEMA : schema;   (* AudioInputSource.AUDIO_CONFIG_SCHEMA.fget() *)
  AudioAnalysisSource_CONFIG_SCHEMA : schema;
  Melbanks_CONFIG_SCHEMA : schema;
  migrate_config : value -> result value;
  parse_version : value -> result Version;
  CONFIGURATION_VERSION : string
}.

(** ** [validate_and_trim_config] *)

Definition unknown_key_message (node key : string) : string :=
  "Unknown/forbidden " ++ node ++ " config key: '" ++ key ++ "'".

Section Validator.

Variable E : Collaborators.

(* for key in config.keys(): if key not in PERMITTED_KEYS[node] and ... *)
Fixpoint check_keys (node : string) (ks : list string) : result unit :=
  match ks with
  | [] => Ok tt
  | key :: ks' =>
      if negb (str_in key (PERMITTED_KEYS E node))
         && negb (String.eqb key "user_presets")
      then Raise (KeyError (unknown_key_message node key))
      else check_keys node ks'
  end.

(* {key: validated_config[key] for key in config.keys()} *)
Fixpoint trim (validated_config : value) (ks : list string) (acc : dict)
  : result dict :=
  match ks with
  | [] => Ok acc
  | key :: ks' =>
      let? v := getitem validated_config key in
      trim validated_config ks' (Dict.set key v acc)
  end.

Definition validate_and_trim_config
    (config : value) (schema_ : schema) (node : string) : result dict :=
  let? ks := keys_of config in
  let? _ := check_keys node ks in
  let? validated_config := schema_ config in
  trim validated_config ks [].

End Validator.

(** ** The service object and the effects of a handler

    [self._ledfx] carries the live configuration and, when the audio
    subsystem has been started, an [audio] attribute.  Calls to collaborators
    (backup, persistence, event bus, audio subsystem, the deferred stop) are
    recorded in [history] in call order.  The assignment statement that
    replaces [self._ledfx.config] as a whole is recorded there too
    ([config_assigned]), so that its place among the collaborator calls can
    be read off the history.  What a collaborator does when it is called, and
    its own failures, are outside this development; logging is left out. *)

Inductive event : Type :=
| create_backup (reason : string)        (* create_backup(config_dir, reason) *)
| config_assigned (new_config : value)   (* self._ledfx.config = new_config *)
| save_config (config : value)           (* save_config(config=..., config_dir=...) *)
| fire_event (payload : value)           (* events.fire_event(BaseConfigUpdateEvent(payload)) *)
| audio_update_config (config : value)   (* self._ledfx.audio.update_config(config) *)
| melbanks_update_config (config : value) (* self._ledfx.audio.melbanks.update_config(config) *)
| call_soon_threadsafe_stop (code : Z).  (* loop.call_soon_threadsafe(self._ledfx.stop, code) *)

Inductive audio_attr : Type :=
| NoAudioAttr      (* hasattr(self._ledfx, "audio") is false *)
| AudioNone        (* self._ledfx.audio is None *)
| AudioSource.     (* an AudioAnalysisSource *)

Record LedFx : Type := mkLedFx {
  ledfx_config : value;
  ledfx_audio : audio_attr;
  history : list event
}.

Definition with_config (c : value) (l : LedFx) : LedFx :=
  mkLedFx c (ledfx_audio l) (history l).

Definition record (ev : event) (l : LedFx) : LedFx :=
  mkLedFx (ledfx_config l) (ledfx_audio l) (history l ++ [ev]).

(** ** State-and-exception monad *)

Definition M (S A : Type) : Type := S -> result A * S.

Definition ret {S A} (a : A) : M S A := fun s => (Ok a, s).

Definition bind {S A B} (c : M S A) (k : A -> M S B) : M S B :=
  fun s =>
    match c s with
    | (Ok a, s') => k a s'
    | (Raise e, s') => (Raise e, s')
    end.

Definition lift {S A} (r : result A) : M S A := fun s => (r, s).

Definition gets {S A} (f : S -> A) : M S A := fun s => (Ok (f s), s).

Definition modify {S} (f : S -> S) : M S unit := fun s => (Ok tt, f s).

(* try: body except ...: handler *)
Definition try_except {S A} (body : M S A) (handler : exn -> M S A) : M S A :=
  fun s =>
    match body s with
    | (Ok a, s') => (Ok a, s')
    | (Raise e, s') => handler e s'
    end.

(* try: body finally: final *)
Definition try_finally {S A} (body : M S A) (final : M S unit) : M S A :=
  fun s =>
    match body s with
    | (r, s') =>
        match final s' with
        | (Ok _, s'') => (r, s'')
        | (Raise e, s'') => (Raise e, s'')
        end
    end.

Declare Scope monad_scope.
Delimit Scope monad_scope with monad.
Notation "x <- c ;; k" := (bind c (fun x => k))
  (at level 61, c at next level, right associativity) : monad_scope.
Notation "c ;; k" := (bind c (fun _ => k))
  (at level 61, right associativity) : monad_scope.
Open Scope monad_scope.

(** A method of the endpoint runs on a pair: the mapping its caller passed
    as [config] (the same object the caller goes on using) and the service
    object. *)

Definition Frame : Type := value * LedFx.

Definition on_self {A} (c : M LedFx A) : M Frame A :=
  fun s =>
    match c (snd s) with
    | (r, l) => (r, (fst s, l))
    end.

(* config.pop(k, {}) on the caller's mapping *)
Definition arg_pop (k : string) : M Frame value :=
  fun s =>
    match pop_of (fst s) k (VDict []) with
    | Ok (x, config') => (Ok x, (config', snd s))
    | Raise e => (Raise e, s)
    end.

Definition arg_get : M Frame value := gets fst.

Definition emit (ev : event) : M LedFx unit := modify (record ev).

(** ** [ConfigEndpoint] *)

(* f"{prefix}{e}", the text of an error answer; str(e) has the empty prefix *)
Inductive text : Type :=
| Fmt (prefix : string) (e : exn).

Inductive response : Type :=
| request_success (type message : option string)
| invalid_request (reason : text)
| internal_error (message : text) (type : option string)
| json_decode_error
| generic_error (message : text).

(* The four trimmed fragments update_config holds once validation is over. *)
Record fragments : Type := mkFragments {
  audio_config : dict;
  wled_config : dict;
  melbanks_config : dict;
  core_config : dict
}.

Section Endpoint.

Variable E : Collaborators.

(** *** [update_config], lines 226-249: pop and validate every fragment *)

Definition validate_fragments : M Frame fragments :=
  audio_raw <- arg_pop "audio" ;;
  audio_config <- lift (validate_and_trim_config E audio_raw
                          (AUDIO_CONFIG_SCHEMA E) "audio") ;;
  audio_config <- lift (validate_and_trim_config E (VDict audio_config)
                          (AudioAnalysisSource_CONFIG_SCHEMA E) "audio") ;;
  wled_raw <- arg_pop "wled_preferences" ;;
  wled_config <- lift (validate_and_trim_config E wled_raw
                         (WLED_CONFIG_SCHEMA E) "wled_preferences") ;;
  melbanks_raw <- arg_pop "melbanks" ;;
  melbanks_config <- lift (validate_and_trim_config E melbanks_raw
                             (Melbanks_CONFIG_SCHEMA E) "melbanks") ;;
  config <- arg_get ;;
  core_config <- lift (validate_and_trim_config E config
                         (CORE_CONFIG_SCHEMA E) "core") ;;
  ret (mkFragments audio_config wled_config melbanks_config core_config).

(** *** [update_config], lines 251-277: merge, then notify *)

(* self._ledfx.config[name] *)
Definition config_getitem (name : string) : M LedFx value :=
  c <- gets ledfx_config ;;
  lift (getitem c name).

(* the object under self._ledfx.config[name] was changed in place to v *)
Definition config_store (name : string) (v : value) : M LedFx unit :=
  c <- gets ledfx_config ;;
  c' <- lift (setitem c name v) ;;
  modify (with_config c').

(* the end of an in-place call: its exception, if it ended with one *)
Definition raise_if (err : option exn) : M LedFx unit :=
  match err with
  | Some e => lift (Raise e)
  | None => ret tt
  end.

(* self._ledfx.config[name].update(fragment) *)
Definition config_item_update (name : string) (fragment : dict) : M LedFx unit :=
  target <- config_getitem name ;;
  after <- lift (update_of target (VDict fragment)) ;;
  config_store name (fst after) ;;
  raise_if (snd after).

(* self._ledfx.config.update(fragment) *)
Definition config_update (fragment : dict) : M LedFx unit :=
  c <- gets ledfx_config ;;
  after <- lift (update_of c (VDict fragment)) ;;
  modify (with_config (fst after)) ;;
  raise_if (snd after).

(* for key in wled_config: ... (lines 256-262), ks the keys still to visit *)
Fixpoint wled_merge (wled_config : dict) (ks : list string) : M LedFx unit :=
  match ks with
  | [] => ret tt
  | key :: ks' =>
      prefs <- config_getitem "wled_preferences" ;;
      present <- lift (contains prefs key) ;;
      (if present : bool then
         target <- lift (getitem prefs key) ;;
         new <- lift (getitem (VDict wled_config) key) ;;
         after <- lift (update_of target new) ;;
         prefs' <- lift (setitem prefs key (fst after)) ;;
         config_store "wled_preferences" prefs' ;;
         raise_if (snd after)
       else
         new <- lift (getitem (VDict wled_config) key) ;;
         prefs' <- lift (setitem prefs key new) ;;
         config_store "wled_preferences" prefs') ;;
      wled_merge wled_config ks'
  end.

(* lines 264-274 *)
Definition notify_audio (f : fragments) : M LedFx unit :=
  audio <- gets ledfx_audio ;;
  (match audio with
   | AudioSource =>
       if Dict.truthy (audio_config f) then
         c <- config_getitem "audio" ;;
         emit (audio_update_config c)
       else ret tt
   | _ => ret tt
   end) ;;
  match audio with
  | NoAudioAttr => ret tt
  | AudioNone =>
      if Dict.truthy (melbanks_config f) then lift (Raise AttributeError)
      else ret tt
  | AudioSource =>
      if Dict.truthy (melbanks_config f) then
        c <- config_getitem "melbanks" ;;
        emit (melbanks_update_config c)
      else ret tt
  end.

Definition merge_fragments (f : fragments) : M Frame value :=
  on_self (config_item_update "audio" (audio_config f)) ;;
  on_self (config_item_update "melbanks" (melbanks_config f)) ;;
  on_self (config_update (core_config f)) ;;
  on_self (wled_merge (wled_config f) (Dict.keys (wled_config f))) ;;
  on_self (notify_audio f) ;;
  (if Dict.truthy (core_config f) then
     config <- arg_get ;;
     on_self (emit (fire_event config))
   else ret tt) ;;
  ret VNull.                              (* the function has no return statement *)

Definition update_config : M Frame value :=
  f <- validate_fragments ;;
  merge_fragments f.

(** *** [check_need_restart] *)

Definition check_need_restart (config : value) : result bool :=
  let? core_config := validate_and_trim_config E config
                        (CORE_CONFIG_SCHEMA E) "core" in
  if negb (Dict.truthy core_config) then Ok false
  else
    let need_restart := true in
    if existsb (fun key => Dict.mem key core_config)
               (CORE_CONFIG_KEYS_NO_RESTART E)
    then Ok false
    else Ok need_restart.

(** *** [put] *)

Definition put_handler (e : exn) : M Frame response :=
  match e with
  | KeyError _ | MultipleInvalid _ =>
      ret (invalid_request (Fmt "Error updating config: " e))
  | _ => ret (internal_error (Fmt EmptyString e) None)
  end.

Definition put_body : M Frame response :=
  try_except
    (update_config ;;
     config <- arg_get ;;
     on_self (emit (fire_event config)) ;;
     live <- on_self (gets ledfx_config) ;;
     on_self (emit (save_config live)) ;;
     config <- arg_get ;;
     need_restart <- lift (check_need_restart config) ;;
     if need_restart : bool then
       try_finally
         (ret (request_success (Some "success")
                 (Some "LedFx is restarting to apply the new configuration")))
         (on_self (emit (call_soon_threadsafe_stop 4)))
     else
       ret (request_success (Some "success") (Some "Configuration Updated")))
    put_handler.

(* request_json: what `await request.json()` gave *)
Definition put (request_json : result value) : M LedFx response :=
  match request_json with
  | Raise JSONDecodeError => ret json_decode_error
  | Raise e => ret (generic_error (Fmt EmptyString e))
  | Ok config =>
      fun l => match put_body (config, l) with (r, s) => (r, snd s) end
  end.

(** *** [delete] *)

Definition delete : M LedFx response :=
  emit (create_backup "DELETE") ;;
  c <- lift (CORE_CONFIG_SCHEMA E (VDict [])) ;;
  modify (with_config c) ;; emit (config_assigned c) ;;
  live <- gets ledfx_config ;;
  emit (save_config live) ;;
  emit (call_soon_threadsafe_stop 4) ;;
  ret (request_success (Some "success")
         (Some "Config reset to default values, LedFx restarting.")).

(** *** [post] *)

(* lines 120-124: the assert and its except clause.  true: the versions are
   equal; false: KeyError or AssertionError was caught. *)
Definition version_matches (config : value) : result bool :=
  let checked :=
    let? tag := getitem config "configuration_version" in
    let? imported := parse_version E tag in
    let? current := parse_version E (VStr (CONFIGURATION_VERSION E)) in
    if list_eq_dec Z.eq_dec imported current then Ok tt
    else Raise AssertionError in
  match checked with
  | Ok _ => Ok true
  | Raise (KeyError _) | Raise AssertionError => Ok false
  | Raise e => Raise e
  end.

Definition migration_failed (e : exn) : text :=
  Fmt "Failed to migrate import config to the new standard: " e.

Definition post_handler (e : exn) : M LedFx response :=
  match e with
  | JSONDecodeError => ret json_decode_error
  | MultipleInvalid _ =>
      ret (internal_error (Fmt "Error loading config: " e) (Some "error"))
  | _ => lift (Raise e)
  end.

(* lines 137-162, once the import config is settled *)
Definition post_commit (config : value) : M LedFx response :=
  emit (create_backup "IMPORT") ;;
  p <- lift (pop_of config "audio" (VDict [])) ;;
  audio_config <- lift (AUDIO_CONFIG_SCHEMA E (fst p)) ;;
  p <- lift (pop_of (snd p) "wled_preferences" (VDict [])) ;;
  wled_config <- lift (WLED_CONFIG_SCHEMA E (fst p)) ;;
  p <- lift (pop_of (snd p) "melbanks" (VDict [])) ;;
  melbanks_config <- lift (Melbanks_CONFIG_SCHEMA E (fst p)) ;;
  core_config <- lift (CORE_CONFIG_SCHEMA E (snd p)) ;;
  core_config <- lift (setitem core_config "audio" audio_config) ;;
  core_config <- lift (setitem core_config "wled_preferences" wled_config) ;;
  core_config <- lift (setitem core_config "melbanks" melbanks_config) ;;
  modify (with_config core_config) ;; emit (config_assigned core_config) ;;
  live <- gets ledfx_config ;;
  emit (save_config live) ;;
  emit (call_soon_threadsafe_stop 4) ;;
  ret (request_success None None).

Definition post (request_json : result value) : M LedFx response :=
  try_except
    (config <- lift request_json ;;
     same <- lift (version_matches config) ;;
     if same : bool then post_commit config
     else
       match migrate_config E config with
       | Raise e => ret (internal_error (migration_failed e) (Some "error"))
       | Ok config => post_commit config
       end)
    post_handler.

End Endpoint.

(** ** Vocabulary of the properties *)

(* key may be submitted for node: it is permitted there, or it is the key
   that is let through everywhere *)
Definition allowed (E : Collaborators) (node key : string) : Prop :=
  str_in key (PERMITTED_KEYS E node) = true \/ key = "user_presets".

Definition forbidden (E : Collaborators) (node key : string) : Prop :=
  str_in key (PERMITTED_KEYS E node) = false /\ key <> "user_presets".

(* The fragment update_config reads for a sub-namespace, and what is left of
   the submitted mapping for the core namespace. *)
Definition raw_fragment (name : string) (config : dict) : value :=
  fst (Dict.pop name (VDict []) config).

Definition residual (config : dict) : dict :=
  Dict.remove "melbanks" (Dict.remove "wled_preferences" (Dict.remove "audio" config)).

(* Validation of each namespace's fragment of a submitted mapping. *)
Definition validated_audio (E : Collaborators) (config : dict) : result dict :=
  let? once := validate_and_trim_config E (raw_fragment "audio" config)
                 (AUDIO_CONFIG_SCHEMA E) "audio" in
  validate_and_trim_config E (VDict once)
    (AudioAnalysisSource_CONFIG_SCHEMA E) "audio".

Definition validated_wled (E : Collaborators) (config : dict) : result dict :=
  validate_and_trim_config E (raw_fragment "wled_preferences" config)
    (WLED_CONFIG_SCHEMA E) "wled_preferences".

Definition validated_melbanks (E : Collaborators) (config : dict) : result dict :=
  validate_and_trim_config E (raw_fragment "melbanks" config)
    (Melbanks_CONFIG_SCHEMA E) "melbanks".

Definition validated_core (E : Collaborators) (config : dict) : result dict :=
  validate_and_trim_config E (VDict (residual config))
    (CORE_CONFIG_SCHEMA E) "core".

(* How far the caller's mapping has been emptied when validation stops at
   the audio (0), the wled_preferences (1) or a later fragment. *)
Definition popped_upto (stage : nat) (config : dict) : dict :=
  match stage with
  | 0 => Dict.remove "audio" config
  | 1 => Dict.remove "wled_preferences" (Dict.remove "audio" config)
  | _ => residual config
  end.

(* A computation on a frame that leaves the caller's mapping alone. *)
Definition keeps_arg {A} (c : M Frame A) : Prop :=
  forall x l, fst (snd (c (x, l))) = x.





(* The two answers of a successful PUT. *)
Definition restarting : response :=
  request_success (Some "success")
    (Some "LedFx is restarting to apply the new configuration").

Definition updated : response :=
  request_success (Some "success") (Some "Configuration Updated").

(* The import config is not at the current version: it carries no version
   tag, or its tag parses to another version than the current one. *)
Definition version_mismatch (E : Collaborators) (config : value) : Prop :=
  (exists d, config = VDict d /\ Dict.get "configuration_version" d = None) \/
  (exists tag imported current,
      getitem config "configuration_version" = Ok tag /\
      parse_version E tag = Ok imported /\
      parse_version E (VStr (CONFIGURATION_VERSION E)) = Ok current /\
      imported <> current).





Definition imported : response := request_success None None.

(** ** A concrete instance

    Small collaborators on which the definitions above run: schemas that
    accept a mapping as it is, fill in defaults, drop what they do not know,
    or check the type of every entry. *)

Module Demo.

Definition accept_mapping : schema :=
  fun v =>
    match v with
    | VDict _ => Ok v
    | _ => Raise (MultipleInvalid "expected a dictionary")
    end.

(* every default is present in the output; submitted keys overwrite them *)
Definition with_defaults (defaults : dict) : schema :=
  fun v =>
    match v with
    | VDict d => Ok (VDict (Dict.update defaults d))
    | _ => Raise (MultipleInvalid "expected a dictionary")
    end.

(* extra=REMOVE_EXTRA: keys the schema does not define are left out *)
Definition known_only (known : list string) : schema :=
  fun v =>
    match v with
    | VDict d => Ok (VDict (filter (fun kv => str_in (fst kv) known) d))
    | _ => Raise (MultipleInvalid "expected a dictionary")
    end.

Definition is_int (v : value) : bool :=
  match v with VInt _ => true | _ => false end.

Definition all_ints : schema :=
  fun v =>
    match v with
    | VDict d =>
        if forallb (fun kv => is_int (snd kv)) d then Ok v
        else Raise (MultipleInvalid "expected int")
    | _ => Raise (MultipleInvalid "expected a dictionary")
    end.

Definition permitted (node : string) : list string :=
  if String.eqb node "core" then
    ["global_brightness"; "scan_on_startup"; "port"; "host"]
  else if String.eqb node "audio" then ["sample_rate"; "min_volume"]
  else if String.eqb node "melbanks" then ["max_frequencies"]
  else if String.eqb node "wled_preferences" then ["dev1"; "dev2"]
  else [].

Definition version_of (v : value) : result Version :=
  match v with
  | VStr s => Ok (map (fun c => Z.of_nat (Ascii.nat_of_ascii c))
                      (list_ascii_of_string s))
  | _ => Raise TypeError
  end.

Definition collaborators : Collaborators := {|
  PERMITTED_KEYS := permitted;
  CORE_CONFIG_KEYS_NO_RESTART := ["global_brightness"; "scan_on_startup"];
  CORE_CONFIG_SCHEMA :=
    with_defaults [("host", VStr "0.0.0.0"); ("port", VInt 8888);
                   ("audio", VDict []); ("melbanks", VDict []);
                   ("wled_preferences", VDict [])];
  WLED_CONFIG_SCHEMA := accept_mapping;
  AUDIO_CONFIG_SCHEMA := accept_mapping;
  AudioAnalysisSource_CONFIG_SCHEMA := accept_mapping;
  Melbanks_CONFIG_SCHEMA := all_ints;
  migrate_config :=
    fun _ => Raise (OtherException "KeyError" "no migration for this version");
  parse_version := version_of;
  CONFIGURATION_VERSION := "2.0.10"
|}.

(* the live configuration of the end-to-end example *)
Definition live : LedFx := {|
  ledfx_config :=
    VDict [("global_brightness", VFloat 4602678819172646912);
           ("port", VInt 8888);
           ("audio", VDict [("sample_rate", VInt 60)]);
           ("melbanks", VDict [("max_frequencies", VInt 350)]);
           ("wled_preferences", VDict [("dev1", VDict [("ip", VStr "1.2.3.4")])])];
  ledfx_audio := AudioSource;
  history := []
|}.

(* {global_brightness: 0.8, wled_preferences: {dev1: {timeout: 5}, dev2: {ip: ...}}} *)
Definition update : dict :=
  [("global_brightness", VFloat 4605380978949069210);
   ("wled_preferences",
    VDict [("dev1", VDict [("timeout", VInt 5)]);
           ("dev2", VDict [("ip", VStr "1.2.3.5")])])].


End Demo.


(** ** The read path: [get] (lines 40-84)

    [keys] is a Python set, iterated in an order Python does not fix.  The
    set of line 25 is listed here in its own iteration order
    ([CORE_CONFIG_KEYS]); the order of the set [keys & CORE_CONFIG_KEYS] is
    the parameter [set_order], applied to the members of the set.  The
    request body is absent ([can_read_body] false) or what
    [await request.json()] gave. *)

Inductive get_response : Type :=
| bare_request_success (response : dict)
| get_json_decode_error.                  (* self.json_decode_error() *)

(* v.get(k) *)
Definition get_of (v : value) (k : string) : result value :=
  match v with
  | VDict d =>
      Ok (match Dict.get k d with Some x => x | None => VNull end)
  | _ => Raise AttributeError
  end.

(* keys.update(wanted_keys): every item is hashed on its way into the set.
   A number, a bool or None goes in and can never equal a str, so it is gone
   after the intersection with CORE_CONFIG_KEYS; only the strings are kept. *)
Fixpoint set_update (items : list value) : result (list string) :=
  match items with
  | [] => Ok []
  | VStr s :: items' => let? rest := set_update items' in Ok (s :: rest)
  | VList _ :: _ => Raise TypeError
  | VDict _ :: _ => Raise TypeError
  | _ :: items' => set_update items'
  end.

(* lines 61-64 *)
Definition wanted (wanted_keys : value) : result (list string) :=
  match wanted_keys with
  | VList items => set_update items
  | VStr s => Ok [s]
  | _ => Ok []
  end.

Section ReadPath.

Variable E : Collaborators.
Variable CORE_CONFIG_KEYS : list string.
Variable set_order : list string -> list string.

(* lines 66-70: keys & CORE_CONFIG_KEYS, or all of them *)
Definition selected_keys (keys : list string) : list string :=
  match filter (fun k => str_in k CORE_CONFIG_KEYS) keys with
  | [] => CORE_CONFIG_KEYS
  | both => set_order both
  end.

(* lines 74-81: the value answered for one key *)
Definition projection (l : LedFx) (key : string) : result value :=
  let? config := get_of (ledfx_config l) key in
  if String.eqb key "audio" then AUDIO_CONFIG_SCHEMA E config
  else if String.eqb key "melbanks" then Melbanks_CONFIG_SCHEMA E config
  else if String.eqb key "wled_preferences" then WLED_CONFIG_SCHEMA E config
  else Ok config.

(* for key in keys: ... response[key] = config *)
Fixpoint project (l : LedFx) (ks : list string) (response : dict) : result dict :=
  match ks with
  | [] => Ok response
  | key :: ks' =>
      let? config := projection l key in
      project l ks' (Dict.set key config response)
  end.

Definition get (body : option (result value)) (l : LedFx) : result get_response :=
  match body with
  | Some (Raise JSONDecodeError) => Ok get_json_decode_error
  | Some (Raise e) => Raise e
  | Some (Ok wanted_keys) =>
      let? keys := wanted wanted_keys in
      let? response := project l (selected_keys keys) [] in
      Ok (bare_request_success response)
  | None =>
      let? response := project l (selected_keys []) [] in
      Ok (bare_request_success response)
  end.

End ReadPath.

(** ** Further vocabulary *)

Definition is_mapping (v : value) : bool :=
  match v with VDict _ => true | _ => false end.

(* The answer of put to an exception (lines 209-214). *)
Definition put_error (e : exn) : response :=
  match e with
  | KeyError _ => invalid_request (Fmt "Error updating config: " e)
  | MultipleInvalid _ => invalid_request (Fmt "Error updating config: " e)
  | _ => internal_error (Fmt EmptyString e) None
  end.

(* The collaborator calls a successful update_config makes, given the
   merged audio and melbanks entries and the caller's mapping. *)
Definition notifications
    (audio : audio_attr) (f : fragments) (audio' melbanks' arg : value)
  : list event :=
  ((match audio with
    | AudioSource =>
        (if Dict.truthy (audio_config f) then [audio_update_config audio']
         else []) ++
        (if Dict.truthy (melbanks_config f) then [melbanks_update_config melbanks']
         else [])
    | _ => []
    end) ++
   (if Dict.truthy (core_config f) then [fire_event arg] else []))%list.

(* The same collaborators with another migration transform. *)
Definition with_migrate_config
    (E : Collaborators) (m : value -> result value) : Collaborators := {|
  PERMITTED_KEYS := PERMITTED_KEYS E;
  CORE_CONFIG_KEYS_NO_RESTART := CORE_CONFIG_KEYS_NO_RESTART E;
  CORE_CONFIG_SCHEMA := CORE_CONFIG_SCHEMA E;
  WLED_CONFIG_SCHEMA := WLED_CONFIG_SCHEMA E;
  AUDIO_CONFIG_SCHEMA := AUDIO_CONFIG_SCHEMA E;
  AudioAnalysisSource_CONFIG_SCHEMA := AudioAnalysisSource_CONFIG_SCHEMA E;
  Melbanks_CONFIG_SCHEMA := Melbanks_CONFIG_SCHEMA E;
  migrate_config := m;
  parse_version := parse_version E;
  CONFIGURATION_VERSION := CONFIGURATION_VERSION E
|}.

(* A set order that is one: the members, each once. *)
Definition is_set_order (set_order : list string -> list string) : Prop :=
  forall members,
    NoDup (set_order members) /\
    forall k, In k (set_order members) <-> In k members.

Module DemoRead.

Definition core_keys : list string :=
  ["host"; "port"; "global_brightness"; "audio"; "melbanks"; "wled_preferences"].

Definition set_order (members : list string) : list string :=
  nodup string_dec members.

(* migrates every config to the current version, keeping the rest *)
Definition upgrade : value -> result value :=
  fun v =>
    match v with
    | VDict d =>
        Ok (VDict (Dict.set "configuration_version"
                     (VStr (CONFIGURATION_VERSION Demo.collaborators)) d))
    | _ => Raise TypeError
    end.

(* the entries of Demo.live *)
Definition live_entries : dict :=
  [("global_brightness", VFloat 4602678819172646912);
   ("port", VInt 8888);
   ("audio", VDict [("sample_rate", VInt 60)]);
   ("melbanks", VDict [("max_frequencies", VInt 350)]);
   ("wled_preferences", VDict [("dev1", VDict [("ip", VStr "1.2.3.4")])])].

End DemoRead.

(* update_config once the store is merged: lines 264-277 *)
Definition after_merge (f : fragments) : M Frame value :=
  on_self (notify_audio f) ;;
  (if Dict.truthy (core_config f) then
     config <- arg_get ;;
     on_self (emit (fire_event config))
   else ret tt) ;;
  ret VNull.

(* The four schema calls of a bulk import (lines 139-148) on a settled
   import config, in the order of the code. *)
Definition imported_parts (E : Collaborators) (config : dict)
  : result (value * value * value * value) :=
  let? audio_config := AUDIO_CONFIG_SCHEMA E (raw_fragment "audio" config) in
  let? wled_config := WLED_CONFIG_SCHEMA E (raw_fragment "wled_preferences" config) in
  let? melbanks_config := Melbanks_CONFIG_SCHEMA E (raw_fragment "melbanks" config) in
  let? core_config := CORE_CONFIG_SCHEMA E (VDict (residual config)) in
  Ok (audio_config, wled_config, melbanks_config, core_config).
(* A computation on the service object that writes the live configuration
   and nothing else: no collaborator is called, the audio attribute stays. *)
Definition touches_config_only {A} (c : M LedFx A) : Prop :=
  forall l, ledfx_audio (snd (c l)) = ledfx_audio l /\
            history (snd (c l)) = history l.

(* A store whose wled_preferences entry for dev1 is a string, and an update
   that brings a mapping for dev1. *)
Module DemoStore.

Definition udp_entries : dict :=
  [("global_brightness", VFloat 4602678819172646912);
   ("port", VInt 8888);
   ("audio", VDict [("sample_rate", VInt 60)]);
   ("melbanks", VDict [("max_frequencies", VInt 350)]);
   ("wled_preferences", VDict [("dev1", VStr "UDP")])].

Definition udp : LedFx := {|
  ledfx_config := VDict udp_entries;
  ledfx_audio := AudioSource;
  history := []
|}.

Definition dev1_update : dict :=
  [("global_brightness", VFloat 4605380978949069210);
   ("wled_preferences", VDict [("dev1", VDict [("timeout", VInt 5)])])].

Definition dev1_fragments : fragments := {|
  audio_config := [];
  wled_config := [("dev1", VDict [("timeout", VInt 5)])];
  melbanks_config := [];
  core_config := [("global_brightness", VFloat 4605380978949069210)]
|}.

End DemoStore.


(** * Properties *)

Open Scope list_scope.

(** ** Dictionaries *)

Module DictFacts.
Import Dict.

Lemma get_set_eq (k : string) (v : value) (d : dict) :
  get k (set k v d) = Some v.
Proof.
  induction d as [| [k' v'] d IH]; simpl.
  - now rewrite String.eqb_refl.
  - destruct (String.eqb k k') eqn:Hk; simpl; rewrite Hk; auto.
Qed.

Lemma get_set_neq (k k' : string) (v : value) (d : dict) :
  k' <> k -> get k' (set k v d) = get k' d.
Proof.
  intros Hne. induction d as [| [k0 v0] d IH]; simpl.
  - destruct (String.eqb_spec k' k); congruence.
  - destruct (String.eqb_spec k k0) as [-> | Hk0]; simpl.
    + destruct (String.eqb_spec k' k0); congruence.
    + destruct (String.eqb k' k0); auto.
Qed.

Lemma get_None (k : string) (d : dict) :
  get k d = None <-> ~ In k (keys d).
Proof.
  induction d as [| [k0 v0] d IH]; simpl.
  - tauto.
  - destruct (String.eqb_spec k k0) as [-> | Hne].
    + split; [discriminate | tauto].
    + rewrite IH. split; [intros H [Heq | Hin]; congruence | tauto].
Qed.

Lemma get_Some_In (k : string) (v : value) (d : dict) :
  get k d = Some v -> In k (keys d).
Proof.
  intros H. destruct (in_dec string_dec k (keys d)) as [Hin | Hnin]; auto.
  apply get_None in Hnin. congruence.
Qed.

Lemma mem_In (k : string) (d : dict) :
  mem k d = true <-> In k (keys d).
Proof.
  unfold mem. destruct (get k d) eqn:Hg.
  - split; auto. intros _. eapply get_Some_In; eauto.
  - apply get_None in Hg. split; [discriminate | tauto].
Qed.

Lemma keys_set (k : string) (v : value) (d : dict) :
  keys (set k v d) = if mem k d then keys d else keys d ++ [k].
Proof.
  unfold mem. induction d as [| [k0 v0] d IH]; simpl; auto.
  destruct (String.eqb k k0) eqn:Hk; simpl; auto.
  rewrite IH. destruct (get k d); auto.
Qed.

Lemma In_keys_set (x k : string) (v : value) (d : dict) :
  In x (keys (set k v d)) <-> x = k \/ In x (keys d).
Proof.
  rewrite keys_set. destruct (mem k d) eqn:Hm.
  - apply mem_In in Hm. split; [tauto | intros [-> | H]; auto].
  - rewrite in_app_iff. simpl. intuition congruence.
Qed.

Lemma NoDup_keys_set (k : string) (v : value) (d : dict) :
  NoDup (keys d) -> NoDup (keys (set k v d)).
Proof.
  intros Hnd. rewrite keys_set. destruct (mem k d) eqn:Hm; auto.
  apply NoDup_app; auto.
  - constructor; [simpl; tauto | constructor].
  - intros x Hx [<- | []]. apply mem_In in Hx. congruence.
Qed.

Lemma get_remove_neq (k k' : string) (d : dict) :
  k' <> k -> get k' (remove k d) = get k' d.
Proof.
  intros Hne. induction d as [| [k0 v0] d IH]; simpl; auto.
  destruct (String.eqb_spec k k0) as [-> | Hk0]; simpl.
  - destruct (String.eqb_spec k' k0); congruence.
  - now rewrite IH.
Qed.

Lemma In_keys_remove (x k : string) (d : dict) :
  In x (keys (remove k d)) <-> In x (keys d) /\ x <> k.
Proof.
  unfold keys, remove. rewrite !in_map_iff. split.
  - intros [[k0 v0] [<- Hin]]. apply filter_In in Hin as [Hin Hk]. simpl in *.
    split; [exists (k0, v0); auto |].
    destruct (String.eqb_spec k k0); [discriminate | congruence].
  - intros [[[k0 v0] [<- Hin]] Hne]. exists (k0, v0). split; auto.
    apply filter_In. split; auto. simpl in *.
    destruct (String.eqb_spec k k0); [congruence | reflexivity].
Qed.

(* A shallow merge read key by key: the keys of the fragment are
   overwritten, every other key keeps its value. *)
Lemma get_update (k : string) (d other : dict) :
  NoDup (keys other) ->
  get k (update d other) =
  match get k other with Some v => Some v | None => get k d end.
Proof.
  unfold update. revert d.
  induction other as [| [k0 v0] other IH]; intros d Hnd; simpl; auto.
  inversion Hnd as [| ? ? Hnin Hnd']; subst.
  rewrite IH by assumption.
  destruct (String.eqb_spec k k0) as [-> | Hne].
  - apply get_None in Hnin. rewrite Hnin. apply get_set_eq.
  - now rewrite get_set_neq.
Qed.

End DictFacts.

(** ** The trimming validator *)

Section ValidatorFacts.

Variable E : Collaborators.

Lemma allowed_dec (node key : string) :
  {allowed E node key} + {forbidden E node key}.
Proof.
  unfold allowed, forbidden.
  destruct (str_in key (PERMITTED_KEYS E node));
    destruct (string_dec key "user_presets"); auto.
Qed.

Lemma check_keys_ok (node : string) (ks : list string) :
  Forall (allowed E node) ks -> check_keys E node ks = Ok tt.
Proof.
  induction 1 as [| key ks [Hp | ->] _ IH]; simpl; auto.
  - now rewrite Hp.
  - now rewrite andb_false_r.
Qed.

Lemma check_keys_Ok_inv (node : string) (ks : list string) (u : unit) :
  check_keys E node ks = Ok u -> Forall (allowed E node) ks.
Proof.
  induction ks as [| key ks IH]; simpl; intros H; constructor.
  - destruct (allowed_dec node key) as [Ha | [Hp Hu]]; auto.
    rewrite Hp in H. destruct (String.eqb_spec key "user_presets"); [tauto | discriminate].
  - apply IH.
    destruct (negb (str_in key (PERMITTED_KEYS E node))
              && negb (String.eqb key "user_presets")); [discriminate | assumption].
Qed.

(* The loop stops at the first forbidden key and names it. *)
Lemma check_keys_first_forbidden (node : string) (ks : list string) :
  (exists k, In k ks /\ forbidden E node k) ->
  exists pre key post,
    ks = pre ++ key :: post /\ Forall (allowed E node) pre /\ forbidden E node key /\
    check_keys E node ks = Raise (KeyError (unknown_key_message node key)).
Proof.
  induction ks as [| k0 ks IH]; intros [k [Hin Hf]]; [destruct Hin |].
  destruct (allowed_dec node k0) as [Ha | Hf0].
  - destruct IH as (pre & key & post & -> & Hpre & Hkey & Hr).
    { destruct Hin as [-> | Hin]; [| eauto].
      destruct Ha as [Ha | Ha], Hf as [Hf1 Hf2]; congruence. }
    exists (k0 :: pre), key, post. repeat split; auto; try apply Hkey.
    simpl. rewrite Hr.
    destruct Ha as [-> | ->]; [reflexivity | now rewrite andb_false_r].
  - exists [], k0, ks. repeat split; auto; try apply Hf0.
    simpl. destruct Hf0 as [-> Hu].
    destruct (String.eqb_spec k0 "user_presets"); [tauto | reflexivity].
Qed.

Lemma trim_get_other (v : value) (ks : list string) (acc d : dict) (k : string) :
  trim v ks acc = Ok d -> ~ In k ks -> Dict.get k d = Dict.get k acc.
Proof.
  revert acc. induction ks as [| key ks IH]; simpl; intros acc H Hnin.
  - congruence.
  - destruct (getitem v key) as [x |]; simpl in H; [| discriminate].
    rewrite (IH _ H) by tauto. apply DictFacts.get_set_neq. intros ->. tauto.
Qed.

Lemma trim_get (v : value) (ks : list string) (acc d : dict) (k : string) :
  trim v ks acc = Ok d -> In k ks ->
  exists x, getitem v k = Ok x /\ Dict.get k d = Some x.
Proof.
  revert acc. induction ks as [| key ks IH]; simpl; intros acc H Hin; [tauto |].
  destruct (getitem v key) as [x |] eqn:Hx; simpl in H; [| discriminate].
  destruct (in_dec string_dec k ks) as [Hk | Hk]; [eauto |].
  destruct Hin as [-> | Hin]; [| tauto].
  exists x. split; auto.
  rewrite (trim_get_other _ _ _ _ _ H Hk). apply DictFacts.get_set_eq.
Qed.

Lemma trim_keys (v : value) (ks : list string) (acc d : dict) (k : string) :
  trim v ks acc = Ok d ->
  (In k (Dict.keys d) <-> In k (Dict.keys acc) \/ In k ks).
Proof.
  revert acc. induction ks as [| key ks IH]; simpl; intros acc H.
  - inversion H. tauto.
  - destruct (getitem v key) as [x |]; simpl in H; [| discriminate].
    rewrite (IH _ H), DictFacts.In_keys_set. intuition congruence.
Qed.

Lemma trim_NoDup (v : value) (ks : list string) (acc d : dict) :
  trim v ks acc = Ok d -> NoDup (Dict.keys acc) -> NoDup (Dict.keys d).
Proof.
  revert acc. induction ks as [| key ks IH]; simpl; intros acc H Hnd.
  - congruence.
  - destruct (getitem v key) as [x |]; simpl in H; [| discriminate].
    eapply IH; eauto. now apply DictFacts.NoDup_keys_set.
Qed.

(* Submitted in order and without repeats, the keys come back as they were. *)
Lemma trim_keys_order (v : value) (ks : list string) (acc d : dict) :
  trim v ks acc = Ok d -> NoDup (Dict.keys acc ++ ks) ->
  Dict.keys d = Dict.keys acc ++ ks.
Proof.
  revert acc. induction ks as [| key ks IH]; simpl; intros acc H Hnd.
  - inversion H. now rewrite app_nil_r.
  - destruct (getitem v key) as [x |]; simpl in H; [| discriminate].
    assert (Hk : Dict.mem key acc = false).
    { destruct (Dict.mem key acc) eqn:Hm; auto. apply DictFacts.mem_In in Hm.
      apply NoDup_remove_2 in Hnd. rewrite in_app_iff in Hnd. tauto. }
    assert (Hs : Dict.keys (Dict.set key x acc) = Dict.keys acc ++ [key])
      by (now rewrite DictFacts.keys_set, Hk).
    rewrite (IH _ H); rewrite Hs, <- app_assoc; auto.
Qed.

(* The comprehension raises at the first submitted key the output lacks. *)
Lemma trim_first_missing (v : value) (ks : list string) (acc : dict) :
  (exists k, In k ks /\ raises (getitem v k)) ->
  exists pre key post e,
    ks = pre ++ key :: post /\
    Forall (fun k => is_ok (getitem v k) = true) pre /\
    getitem v key = Raise e /\ trim v ks acc = Raise e.
Proof.
  revert acc. induction ks as [| k0 ks IH]; intros acc [k [Hin Hr]]; [destruct Hin |].
  destruct (getitem v k0) as [x |] eqn:Hx.
  - destruct (IH (Dict.set k0 x acc)) as (pre & key & post & e & -> & Hpre & Hk & Ht).
    { destruct Hin as [-> | Hin]; [| eauto]. destruct Hr. congruence. }
    exists (k0 :: pre), key, post, e. repeat split; auto.
    + constructor; auto. now rewrite Hx.
    + simpl. now rewrite Hx.
  - exists [], k0, ks, e. repeat split; auto. simpl. now rewrite Hx.
Qed.

Lemma trim_Raise_inv (v : value) (ks : list string) (acc : dict) (e : exn) :
  trim v ks acc = Raise e -> exists k, In k ks /\ getitem v k = Raise e.
Proof.
  revert acc. induction ks as [| k0 ks IH]; simpl; intros acc H; [discriminate |].
  destruct (getitem v k0) as [x |] eqn:Hx; simpl in H.
  - destruct (IH _ H) as [k [Hin Hk]]. eauto.
  - inversion H; subst. eauto.
Qed.

(* What a successful call went through. *)
Lemma validate_and_trim_config_Ok_inv
    (config : value) (s : schema) (node : string) (r : dict) :
  validate_and_trim_config E config s node = Ok r ->
  exists f validated,
    config = VDict f /\ Forall (allowed E node) (Dict.keys f) /\
    s config = Ok validated /\ trim validated (Dict.keys f) [] = Ok r.
Proof.
  unfold validate_and_trim_config. intros H.
  destruct config; simpl in H; try discriminate.
  destruct (check_keys E node (Dict.keys entries)) as [u |] eqn:Hc;
    simpl in H; [| discriminate].
  destruct (s (VDict entries)) as [validated |] eqn:Hs; simpl in H; [| discriminate].
  exists entries, validated. repeat split; auto.
  eapply check_keys_Ok_inv; eauto.
Qed.

Lemma validate_and_trim_config_NoDup
    (config : value) (s : schema) (node : string) (r : dict) :
  validate_and_trim_config E config s node = Ok r -> NoDup (Dict.keys r).
Proof.
  intros H. apply validate_and_trim_config_Ok_inv in H
    as (f & validated & _ & _ & _ & Ht).
  eapply trim_NoDup; eauto. constructor.
Qed.

Lemma validate_and_trim_config_keys
    (f : dict) (s : schema) (node : string) (r : dict) (k : string) :
  validate_and_trim_config E (VDict f) s node = Ok r ->
  (In k (Dict.keys r) <-> In k (Dict.keys f)).
Proof.
  intros H. apply validate_and_trim_config_Ok_inv in H
    as (f' & validated & Hf & _ & _ & Ht).
  inversion Hf; subst f'. rewrite (trim_keys _ _ _ _ k Ht). simpl. tauto.
Qed.

End ValidatorFacts.

(** C3 (trimming guarantee).  Whenever [validate_and_trim_config] returns,
    every key of the returned mapping is a key of the submitted fragment,
    and a key the caller did not submit has no entry in the result, whatever
    defaults the schema filled in. *)
Theorem validate_and_trim_config_subset
    (E : Collaborators) (f : dict) (s : schema) (node : string) (r : dict) :
  validate_and_trim_config E (VDict f) s node = Ok r ->
  incl (Dict.keys r) (Dict.keys f) /\
  (forall k, ~ In k (Dict.keys f) -> Dict.get k r = None).
Proof.
  intros H. split.
  - intros k Hk. now apply (validate_and_trim_config_keys E f s node r k H).
  - intros k Hk. apply DictFacts.get_None.
    now rewrite (validate_and_trim_config_keys E f s node r k H).
Qed.

(* The demo core schema fills in five defaults; only the submitted key
   comes back. *)
Lemma validate_and_trim_config_subset_witness :
  validate_and_trim_config Demo.collaborators (VDict [("port", VInt 80)])
    (CORE_CONFIG_SCHEMA Demo.collaborators) "core" = Ok [("port", VInt 80)] /\
  incl (Dict.keys [("port", VInt 80)]) (Dict.keys [("port", VInt 80)]) /\
  (forall k, ~ In k (Dict.keys [("port", VInt 80)]) ->
             Dict.get k [("port", VInt 80)] = None).
Proof.
  split; [reflexivity |].
  apply (validate_and_trim_config_subset Demo.collaborators
           [("port", VInt 80)] (CORE_CONFIG_SCHEMA Demo.collaborators) "core").
  reflexivity.
Defined.

(** C4 (unknown-key rejection).  If a fragment holds a key that is neither
    permitted for the namespace nor ['user_presets'], the call raises a
    KeyError whose message names the namespace and the first such key in
    the fragment's order; the schema's answer plays no part, and nothing of
    the fragment is returned. *)
Theorem validate_and_trim_config_unknown_key
    (E : Collaborators) (f : dict) (s : schema) (node k : string) :
  In k (Dict.keys f) ->
  str_in k (PERMITTED_KEYS E node) = false ->
  k <> "user_presets"%string ->
  exists pre key post,
    Dict.keys f = pre ++ key :: post /\
    Forall (allowed E node) pre /\
    str_in key (PERMITTED_KEYS E node) = false /\
    key <> "user_presets"%string /\
    validate_and_trim_config E (VDict f) s node =
      Raise (KeyError ("Unknown/forbidden " ++ node ++ " config key: '"
                         ++ key ++ "'")%string).
Proof.
  intros Hin Hp Hu.
  destruct (check_keys_first_forbidden E node (Dict.keys f))
    as (pre & key & post & Hks & Hpre & [Hk1 Hk2] & Hr).
  { exists k. split; [assumption | split; assumption]. }
  exists pre, key, post. repeat split; auto.
  unfold validate_and_trim_config. simpl. rewrite Hr. reflexivity.
Qed.

Lemma validate_and_trim_config_unknown_key_witness :
  exists pre key post,
    Dict.keys [("port", VInt 80); ("colour", VStr "red"); ("shape", VNull)]
      = pre ++ key :: post /\
    Forall (allowed Demo.collaborators "core") pre /\
    str_in key (PERMITTED_KEYS Demo.collaborators "core") = false /\
    key <> "user_presets"%string /\
    validate_and_trim_config Demo.collaborators
      (VDict [("port", VInt 80); ("colour", VStr "red"); ("shape", VNull)])
      Demo.accept_mapping "core" =
      Raise (KeyError ("Unknown/forbidden " ++ "core" ++ " config key: '"
                         ++ key ++ "'")%string).
Proof.
  apply (validate_and_trim_config_unknown_key Demo.collaborators
           [("port", VInt 80); ("colour", VStr "red"); ("shape", VNull)]
           Demo.accept_mapping "core" "shape").
  - simpl. tauto.
  - reflexivity.
  - discriminate.
Defined.

(** C9 (exact key set).  On success the returned mapping has exactly the
    submitted keys (in the submitted order when they do not repeat, as in
    any Python dict), each with the value the schema's output has for it.
    If every submitted key passes the allow-list and the
    schema's output is a mapping that lacks a submitted key, the call raises
    KeyError for the first such key instead of dropping it.  When the
    schema's output keeps every submitted key that is permitted for the
    namespace, the only key this KeyError can name is ['user_presets']. *)
Theorem validate_and_trim_config_exact_keys
    (E : Collaborators) (f : dict) (s : schema) (node : string) :
  (forall r,
      validate_and_trim_config E (VDict f) s node = Ok r ->
      (forall k, In k (Dict.keys r) <-> In k (Dict.keys f)) /\
      NoDup (Dict.keys r) /\
      (NoDup (Dict.keys f) -> Dict.keys r = Dict.keys f) /\
      (forall k v, Dict.get k r = Some v ->
                   exists validated,
                     s (VDict f) = Ok validated /\ getitem validated k = Ok v)) /\
  (forall out k,
      Forall (allowed E node) (Dict.keys f) ->
      s (VDict f) = Ok (VDict out) ->
      In k (Dict.keys f) -> Dict.get k out = None ->
      exists pre key post,
        Dict.keys f = pre ++ key :: post /\
        Forall (fun k' => In k' (Dict.keys out)) pre /\
        Dict.get key out = None /\
        validate_and_trim_config E (VDict f) s node = Raise (KeyError key)) /\
  (forall out key,
      Forall (allowed E node) (Dict.keys f) ->
      s (VDict f) = Ok (VDict out) ->
      (forall k, In k (Dict.keys f) ->
                 str_in k (PERMITTED_KEYS E node) = true ->
                 In k (Dict.keys out)) ->
      validate_and_trim_config E (VDict f) s node = Raise (KeyError key) ->
      key = "user_presets"%string).
Proof.
  split; [| split].
  - intros r H. split; [| split; [| split]].
    + intros k. now apply (validate_and_trim_config_keys E f s node r k).
    + eapply validate_and_trim_config_NoDup; eauto.
    + intros Hnd. apply validate_and_trim_config_Ok_inv in H
        as (f' & validated & Hf & _ & _ & Ht).
      inversion Hf; subst f'. now apply (trim_keys_order _ _ _ _ Ht).
    + intros k v Hg.
      pose proof (DictFacts.get_Some_In _ _ _ Hg) as Hin.
      apply validate_and_trim_config_Ok_inv in H
        as (f' & validated & Hf & _ & Hs & Ht).
      inversion Hf; subst f'. exists validated. split; [exact Hs |].
      apply (trim_keys _ _ _ _ k Ht) in Hin as [[] | Hin].
      destruct (trim_get _ _ _ _ k Ht Hin) as (x & Hx & Hr). congruence.
  - intros out k Hall Hs Hin Hget.
    destruct (trim_first_missing (VDict out) (Dict.keys f) [])
      as (pre & key & post & e & Hks & Hpre & Hkey & Ht).
    { exists k. split; auto. exists (KeyError k). simpl. now rewrite Hget. }
    simpl in Hkey. destruct (Dict.get key out) eqn:Hg; inversion Hkey; subst e.
    exists pre, key, post. repeat split; auto.
    + eapply Forall_impl; [| exact Hpre]. intros k' Hk'. simpl in Hk'.
      destruct (Dict.get k' out) eqn:Hg'; [| discriminate].
      eapply DictFacts.get_Some_In; eauto.
    + unfold validate_and_trim_config. simpl.
      rewrite (check_keys_ok E node _ Hall). simpl. rewrite Hs. exact Ht.
  - intros out key Hall Hs Hkeep H.
    unfold validate_and_trim_config in H. simpl in H.
    rewrite (check_keys_ok E node _ Hall) in H. simpl in H. rewrite Hs in H.
    simpl in H. apply trim_Raise_inv in H as [k [Hin Hk]].
    simpl in Hk. destruct (Dict.get k out) eqn:Hg; inversion Hk; subst key.
    apply DictFacts.get_None in Hg.
    rewrite Forall_forall in Hall. destruct (Hall k Hin) as [Hp | Hu]; auto.
    elim Hg. auto.
Qed.

(* A schema that leaves out what it does not define, asked for user_presets. *)
Lemma validate_and_trim_config_exact_keys_witness :
  exists pre key post,
    Dict.keys [("port", VInt 80); ("user_presets", VDict [])]
      = pre ++ key :: post /\
    Forall (fun k' => In k' (Dict.keys [("port", VInt 80)])) pre /\
    Dict.get key [("port", VInt 80)] = None /\
    validate_and_trim_config Demo.collaborators
      (VDict [("port", VInt 80); ("user_presets", VDict [])])
      (Demo.known_only ["port"; "host"]) "core" = Raise (KeyError key).
Proof.
  apply (proj1 (proj2 (validate_and_trim_config_exact_keys Demo.collaborators
           [("port", VInt 80); ("user_presets", VDict [])]
           (Demo.known_only ["port"; "host"]) "core"))
         [("port", VInt 80)] "user_presets"%string).
  - constructor; [left; reflexivity |].
    constructor; [right; reflexivity | constructor].
  - reflexivity.
  - simpl. tauto.
  - reflexivity.
Defined.

Example validate_and_trim_config_keeps_order :
  validate_and_trim_config Demo.collaborators
    (VDict [("port", VStr "80"); ("host", VStr "::")])
    (CORE_CONFIG_SCHEMA Demo.collaborators) "core"
  = Ok [("port", VStr "80"); ("host", VStr "::")].
Proof. reflexivity. Qed.

(** ** The restart classifier *)

Lemma existsb_mem (d : dict) (ks : list string) :
  existsb (fun key => Dict.mem key d) ks = true <->
  exists k, In k ks /\ In k (Dict.keys d).
Proof.
  rewrite existsb_exists. split; intros [k [H1 H2]]; exists k; split; auto;
    now apply DictFacts.mem_In.
Qed.

Lemma check_need_restart_Ok (E : Collaborators) (config : value) (t : dict) :
  validate_and_trim_config E config (CORE_CONFIG_SCHEMA E) "core" = Ok t ->
  check_need_restart E config =
  Ok (Dict.truthy t
      && negb (existsb (fun key => Dict.mem key t) (CORE_CONFIG_KEYS_NO_RESTART E))).
Proof.
  intros H. unfold check_need_restart. rewrite H. simpl.
  destruct (Dict.truthy t); simpl; auto.
  destruct (existsb _ _); auto.
Qed.

(** C2 (restart classification).  [check_need_restart] first validates and
    trims its argument against the core namespace and raises what that
    raises.  On an empty trimmed fragment it answers false.  If one key of
    the trimmed fragment is in the no-restart set it answers false whatever
    other keys are there; a non-empty trimmed fragment with no such key
    gives true.  Read on the submitted mapping itself: the answer is true
    exactly when the mapping is non-empty and none of its keys is exempt. *)
Theorem check_need_restart_classification (E : Collaborators) (config : value) :
  (forall e,
      validate_and_trim_config E config (CORE_CONFIG_SCHEMA E) "core" = Raise e ->
      check_need_restart E config = Raise e) /\
  (validate_and_trim_config E config (CORE_CONFIG_SCHEMA E) "core" = Ok [] ->
   check_need_restart E config = Ok false) /\
  (forall t k,
      validate_and_trim_config E config (CORE_CONFIG_SCHEMA E) "core" = Ok t ->
      In k (Dict.keys t) -> In k (CORE_CONFIG_KEYS_NO_RESTART E) ->
      check_need_restart E config = Ok false) /\
  (forall t,
      validate_and_trim_config E config (CORE_CONFIG_SCHEMA E) "core" = Ok t ->
      t <> [] ->
      (forall k, In k (Dict.keys t) -> ~ In k (CORE_CONFIG_KEYS_NO_RESTART E)) ->
      check_need_restart E config = Ok true) /\
  (forall f t,
      config = VDict f ->
      validate_and_trim_config E config (CORE_CONFIG_SCHEMA E) "core" = Ok t ->
      (check_need_restart E config = Ok true <->
       f <> [] /\
       forall k, In k (Dict.keys f) -> ~ In k (CORE_CONFIG_KEYS_NO_RESTART E))).
Proof.
  split; [| split; [| split; [| split]]].
  - intros e H. unfold check_need_restart. now rewrite H.
  - intros H. now rewrite (check_need_restart_Ok E config [] H).
  - intros t k H Hk Hx. rewrite (check_need_restart_Ok E config t H).
    assert (Hex : existsb (fun key => Dict.mem key t)
                    (CORE_CONFIG_KEYS_NO_RESTART E) = true)
      by (apply existsb_mem; eauto).
    rewrite Hex. now rewrite andb_false_r.
  - intros t H Hne Hno. rewrite (check_need_restart_Ok E config t H).
    destruct t as [| kv t]; [congruence |]. simpl.
    destruct (existsb _ _) eqn:Hex; auto.
    apply existsb_mem in Hex as [k [H1 H2]]. elim (Hno k H2 H1).
  - intros f t -> H. rewrite (check_need_restart_Ok E (VDict f) t H).
    assert (Hkeys : forall k, In k (Dict.keys t) <-> In k (Dict.keys f))
      by (intros k; apply (validate_and_trim_config_keys E f _ _ t k H)).
    assert (Ht : Dict.truthy t = true <-> f <> []).
    { destruct t as [| [k0 v0] t], f as [| [k1 v1] f]; simpl;
        try (split; congruence).
      - destruct (proj2 (Hkeys k1)); simpl; auto.
      - destruct (proj1 (Hkeys k0)); simpl; auto. }
    split.
    + intros Hc. inversion Hc as [Hb]. apply andb_prop in Hb as [Hb1 Hb2].
      split; [now apply Ht |]. intros k Hk Hx.
      apply negb_true_iff in Hb2.
      assert (Hex : existsb (fun key => Dict.mem key t)
                      (CORE_CONFIG_KEYS_NO_RESTART E) = true)
        by (apply existsb_mem; exists k; split; auto; now apply Hkeys).
      congruence.
    + intros [Hne Hno]. apply Ht in Hne. rewrite Hne. simpl.
      destruct (existsb _ _) eqn:Hex; auto.
      apply existsb_mem in Hex as [k [H1 H2]].
      apply Hkeys in H2. elim (Hno k H2 H1).
Qed.

(* One exempt key next to one that is not: no restart. *)
Lemma check_need_restart_classification_witness :
  check_need_restart Demo.collaborators
    (VDict [("port", VInt 80); ("global_brightness", VInt 1)]) = Ok false.
Proof.
  apply (proj1 (proj2 (proj2 (check_need_restart_classification Demo.collaborators
           (VDict [("port", VInt 80); ("global_brightness", VInt 1)]))))
         [("port", VInt 80); ("global_brightness", VInt 1)]
         "global_brightness"%string).
  - reflexivity.
  - simpl. tauto.
  - simpl. tauto.
Defined.

Example check_need_restart_exempt_only :
  check_need_restart Demo.collaborators
    (VDict [("scan_on_startup", VBool true)]) = Ok false.
Proof. reflexivity. Qed.

Example check_need_restart_empty :
  check_need_restart Demo.collaborators (VDict []) = Ok false.
Proof. reflexivity. Qed.

Example check_need_restart_plain_key :
  check_need_restart Demo.collaborators (VDict [("port", VInt 80)]) = Ok true.
Proof. reflexivity. Qed.

Example check_need_restart_unknown_key :
  check_need_restart Demo.collaborators (VDict [("colour", VInt 80)])
  = Raise (KeyError "Unknown/forbidden core config key: 'colour'").
Proof. reflexivity. Qed.

(** ** The merge engine: validation phase *)

Lemma remove_absent (k : string) (d : dict) :
  Dict.get k d = None -> Dict.remove k d = d.
Proof.
  induction d as [| [k0 v0] d IH]; simpl; auto.
  destruct (String.eqb k k0); simpl; [discriminate |].
  intros H. now rewrite IH.
Qed.

Lemma pop_snd (k : string) (dflt : value) (d : dict) :
  snd (Dict.pop k dflt d) = Dict.remove k d.
Proof.
  unfold Dict.pop. destruct (Dict.get k d) eqn:Hg; simpl; auto.
  symmetry. now apply remove_absent.
Qed.

Lemma pop_fst_remove (k k' : string) (dflt : value) (d : dict) :
  k <> k' -> fst (Dict.pop k dflt (Dict.remove k' d)) = fst (Dict.pop k dflt d).
Proof.
  intros Hne. unfold Dict.pop.
  rewrite DictFacts.get_remove_neq by assumption.
  destruct (Dict.get k d); reflexivity.
Qed.

Lemma pop_of_dict (d : dict) (k : string) (dflt : value) :
  pop_of (VDict d) k dflt = Ok (fst (Dict.pop k dflt d), VDict (Dict.remove k d)).
Proof.
  unfold pop_of. rewrite <- (pop_snd k dflt d).
  now destruct (Dict.pop k dflt d).
Qed.

Lemma arg_pop_dict (k : string) (d : dict) (l : LedFx) :
  arg_pop k (VDict d, l) = (Ok (raw_fragment k d), (VDict (Dict.remove k d), l)).
Proof. unfold arg_pop. simpl fst. now rewrite pop_of_dict. Qed.

(* The validation phase, namespace by namespace: it never touches the
   service object, and it stops at the first validation that raises. *)
Lemma validate_fragments_run (E : Collaborators) (config : dict) (l : LedFx) :
  validate_fragments E (VDict config, l) =
  match validated_audio E config with
  | Raise e => (Raise e, (VDict (popped_upto 0 config), l))
  | Ok a =>
      match validated_wled E config with
      | Raise e => (Raise e, (VDict (popped_upto 1 config), l))
      | Ok w =>
          match validated_melbanks E config with
          | Raise e => (Raise e, (VDict (residual config), l))
          | Ok m =>
              match validated_core E config with
              | Raise e => (Raise e, (VDict (residual config), l))
              | Ok c => (Ok (mkFragments a w m c), (VDict (residual config), l))
              end
          end
      end
  end.
Proof.
  unfold validate_fragments, validated_audio, validated_wled,
    validated_melbanks, validated_core, residual, popped_upto.
  unfold bind at 1. rewrite arg_pop_dict.
  unfold bind at 1, lift at 1.
  destruct (validate_and_trim_config E (raw_fragment "audio" config) _ _)
    as [a0 |]; simpl rbind; [| reflexivity].
  unfold bind at 1, lift at 1.
  destruct (validate_and_trim_config E (VDict a0) _ _) as [a |]; [| reflexivity].
  unfold bind at 1. rewrite arg_pop_dict.
  unfold raw_fragment at 1. rewrite pop_fst_remove by discriminate.
  fold (raw_fragment "wled_preferences" config).
  unfold bind at 1, lift at 1.
  destruct (validate_and_trim_config E (raw_fragment "wled_preferences" config) _ _)
    as [w |]; [| reflexivity].
  unfold bind at 1. rewrite arg_pop_dict.
  unfold raw_fragment at 1. rewrite !pop_fst_remove by discriminate.
  fold (raw_fragment "melbanks" config).
  unfold bind at 1, lift at 1.
  destruct (validate_and_trim_config E (raw_fragment "melbanks" config) _ _)
    as [m |]; [| reflexivity].
  unfold bind at 1, arg_get, gets. simpl fst.
  unfold bind at 1, lift at 1.
  destruct (validate_and_trim_config E (VDict _) _ _) as [c |]; reflexivity.
Qed.

(** C1 (atomicity of a multi-namespace update).  If the validation of the
    audio, wled_preferences, melbanks or core fragment of a submitted mapping
    raises, [update_config] raises the error of the first validation that
    fails (in the order audio, wled_preferences, melbanks, core), and the
    service object is the one it was before the call: the live configuration
    holds no key of any fragment, and no collaborator has been notified. *)
Theorem update_config_atomic (E : Collaborators) (config : dict) (l : LedFx) :
  raises (validated_audio E config) \/ raises (validated_wled E config) \/
  raises (validated_melbanks E config) \/ raises (validated_core E config) ->
  exists e,
    fst (update_config E (VDict config, l)) = Raise e /\
    snd (snd (update_config E (VDict config, l))) = l /\
    (validated_audio E config = Raise e \/
     is_ok (validated_audio E config) = true /\
     (validated_wled E config = Raise e \/
      is_ok (validated_wled E config) = true /\
      (validated_melbanks E config = Raise e \/
       is_ok (validated_melbanks E config) = true /\
       validated_core E config = Raise e))).
Proof.
  intros H. unfold update_config, bind. rewrite validate_fragments_run.
  destruct (validated_audio E config) as [a | e1].
  2: { exists e1. simpl. repeat first [reflexivity | split | left; reflexivity | right]. }
  destruct (validated_wled E config) as [w | e2].
  2: { exists e2. simpl. repeat first [reflexivity | split | left; reflexivity | right]. }
  destruct (validated_melbanks E config) as [m | e3].
  2: { exists e3. simpl. repeat first [reflexivity | split | left; reflexivity | right]. }
  destruct (validated_core E config) as [c | e4].
  2: { exists e4. simpl. repeat first [reflexivity | split | left; reflexivity | right]. }
  destruct H as [[e H] | [[e H] | [[e H] | [e H]]]]; discriminate.
Qed.

(* A valid audio fragment next to a melbanks fragment of the wrong type. *)
Lemma update_config_atomic_witness :
  exists e,
    fst (update_config Demo.collaborators
           (VDict [("port", VInt 80);
                   ("audio", VDict [("sample_rate", VInt 44100)]);
                   ("melbanks", VDict [("max_frequencies", VStr "high")])],
            Demo.live)) = Raise e /\
    snd (snd (update_config Demo.collaborators
           (VDict [("port", VInt 80);
                   ("audio", VDict [("sample_rate", VInt 44100)]);
                   ("melbanks", VDict [("max_frequencies", VStr "high")])],
            Demo.live))) = Demo.live /\
    e = MultipleInvalid "expected int".
Proof.
  destruct (update_config_atomic Demo.collaborators
              [("port", VInt 80);
               ("audio", VDict [("sample_rate", VInt 44100)]);
               ("melbanks", VDict [("max_frequencies", VStr "high")])]
              Demo.live) as (e & H1 & H2 & H3).
  - right. right. left. exists (MultipleInvalid "expected int"). reflexivity.
  - exists e. split; [exact H1 | split; [exact H2 |]].
    destruct H3 as [H3 | [_ [H3 | [_ [H3 | [_ H3]]]]]];
      vm_compute in H3; congruence.
Defined.

(** ** The merge engine: merge phase *)

Lemma on_self_run {A} (c : M LedFx A) (x : value) (l : LedFx) :
  on_self c (x, l) = (fst (c l), (x, snd (c l))).
Proof. unfold on_self. simpl. now destruct (c l). Qed.

Lemma config_item_update_run
    (name : string) (fragment live d : dict) (l : LedFx) :
  ledfx_config l = VDict live ->
  Dict.get name live = Some (VDict d) ->
  config_item_update name fragment l =
  (Ok tt, with_config
            (VDict (Dict.set name (VDict (Dict.update d fragment)) live)) l).
Proof.
  intros Hl Hg.
  unfold config_item_update, config_getitem, config_store,
    bind, gets, lift, modify.
  rewrite Hl. simpl. rewrite Hg. reflexivity.
Qed.

Lemma config_update_run (fragment live : dict) (l : LedFx) :
  ledfx_config l = VDict live ->
  config_update fragment l =
  (Ok tt, with_config (VDict (Dict.update live fragment)) l).
Proof.
  intros Hl. unfold config_update, bind, gets, lift, modify.
  rewrite Hl. reflexivity.
Qed.


Lemma validate_fragments_Ok_inv
    (E : Collaborators) (config : dict) (l : LedFx) (f : fragments) :
  fst (validate_fragments E (VDict config, l)) = Ok f ->
  validate_fragments E (VDict config, l) = (Ok f, (VDict (residual config), l)) /\
  validated_audio E config = Ok (audio_config f) /\
  validated_wled E config = Ok (wled_config f) /\
  validated_melbanks E config = Ok (melbanks_config f) /\
  validated_core E config = Ok (core_config f).
Proof.
  rewrite validate_fragments_run.
  destruct (validated_audio E config) as [a |]; [| discriminate].
  destruct (validated_wled E config) as [w |]; [| discriminate].
  destruct (validated_melbanks E config) as [m |]; [| discriminate].
  destruct (validated_core E config) as [c |]; [| discriminate].
  simpl. intros H. inversion H; subst f. simpl. auto.
Qed.





Lemma update_config_run
    (E : Collaborators) (config : dict) (l : LedFx) (f : fragments) :
  fst (validate_fragments E (VDict config, l)) = Ok f ->
  update_config E (VDict config, l) =
  merge_fragments f (VDict (residual config), l).
Proof.
  intros H. apply validate_fragments_Ok_inv in H as [H _].
  unfold update_config, bind. now rewrite H.
Qed.

Lemma update_config_Ok_inv
    (E : Collaborators) (config : dict) (l : LedFx) (v : value) :
  fst (update_config E (VDict config, l)) = Ok v ->
  exists f, fst (validate_fragments E (VDict config, l)) = Ok f.
Proof.
  unfold update_config, bind.
  destruct (validate_fragments E (VDict config, l)) as [[f | e] s]; simpl; eauto.
  discriminate.
Qed.

Lemma set_same (k : string) (v : value) (d : dict) :
  Dict.get k d = Some v -> Dict.set k v d = d.
Proof.
  induction d as [| [k0 v0] d IH]; simpl; [discriminate |].
  destruct (String.eqb k k0); intros H.
  - now inversion H.
  - now rewrite IH.
Qed.

Lemma with_config_same (l : LedFx) : with_config (ledfx_config l) l = l.
Proof. now destruct l. Qed.

(* What follows the merge: the two audio notifications and the event. *)
Lemma after_merge_run
    (f : fragments) (x : value) (l : LedFx) (live : dict) (a' m' : value) :
  ledfx_config l = VDict live ->
  Dict.get "audio" live = Some a' ->
  Dict.get "melbanks" live = Some m' ->
  after_merge f (x, l) =
  match ledfx_audio l, Dict.truthy (melbanks_config f) with
  | AudioNone, true => (Raise AttributeError, (x, l))
  | au, _ =>
      (Ok VNull,
       (x, mkLedFx (ledfx_config l) au
             (history l ++ notifications au f a' m' x)))
  end.
Proof.
  intros Hl Ha Hm. destruct l as [c au h0]. simpl in Hl. subst c.
  unfold after_merge, notifications.
  unfold bind at 1. rewrite on_self_run.
  unfold notify_audio, bind, gets, config_getitem, lift, emit, modify, ret,
    record, arg_get, on_self.
  simpl.
  destruct au, (Dict.truthy (audio_config f)), (Dict.truthy (melbanks_config f)),
    (Dict.truthy (core_config f)); simpl; rewrite ?Ha, ?Hm; simpl;
    rewrite ?Ha, ?Hm; simpl; rewrite ?app_nil_r, <- ?app_assoc; reflexivity.
Qed.



(** ** The wled_preferences loop on any store *)

Lemma mem_get (k : string) (d : dict) :
  Dict.mem k d = true -> exists v, Dict.get k d = Some v.
Proof. unfold Dict.mem. destruct (Dict.get k d); [eauto | discriminate]. Qed.

Lemma with_config_twice (c c' : value) (l : LedFx) :
  with_config c (with_config c' l) = with_config c l.
Proof. reflexivity. Qed.

(* One round of the loop, lines 257-262, on a store that has its
   wled_preferences mapping. *)
Lemma wled_merge_step
    (fw : dict) (key : string) (ks : list string) (l : LedFx)
    (live w : dict) (new : value) :
  ledfx_config l = VDict live ->
  Dict.get "wled_preferences" live = Some (VDict w) ->
  Dict.get key fw = Some new ->
  wled_merge fw (key :: ks) l =
  match Dict.get key w with
  | None =>
      wled_merge fw ks
        (with_config
           (VDict (Dict.set "wled_preferences" (VDict (Dict.set key new w)) live)) l)
  | Some (VDict od) =>
      let l1 :=
        with_config
          (VDict (Dict.set "wled_preferences"
                    (VDict (Dict.set key (VDict (fst (dict_update od new))) w))
                    live)) l in
      match snd (dict_update od new) with
      | None => wled_merge fw ks l1
      | Some e => (Raise e, l1)
      end
  | Some _ => (Raise AttributeError, l)
  end.
Proof.
  intros Hl Hw Hnew. simpl wled_merge.
  unfold bind at 1, config_getitem, bind at 1, gets at 1, lift at 1.
  rewrite Hl. simpl getitem. rewrite Hw.
  unfold bind at 1, lift at 1, contains, Dict.mem.
  destruct (Dict.get key w) as [old |] eqn:Hk.
  - unfold bind, lift, config_store, gets, modify. simpl.
    rewrite Hk, Hnew. simpl.
    destruct old; simpl; try reflexivity.
    unfold bind, lift. simpl. rewrite Hl. simpl.
    destruct (snd (dict_update entries new)); reflexivity.
  - unfold bind, lift, config_store, gets, modify. simpl.
    rewrite Hnew. simpl. unfold bind, lift. simpl. rewrite Hl. reflexivity.
Qed.

(* Without a wled_preferences mapping in the store the first round raises
   before it writes. *)
Lemma wled_merge_no_prefs
    (fw : dict) (key : string) (ks : list string) (l : LedFx) (live : dict) :
  ledfx_config l = VDict live ->
  (forall w, Dict.get "wled_preferences" live <> Some (VDict w)) ->
  exists e, wled_merge fw (key :: ks) l = (Raise e, l).
Proof.
  intros Hl Hw. simpl wled_merge.
  unfold bind at 1, config_getitem, bind at 1, gets at 1, lift at 1.
  rewrite Hl. simpl getitem.
  destruct (Dict.get "wled_preferences" live) as [prefs |]; [| eauto].
  destruct prefs; try (eexists; reflexivity).
  elim (Hw entries). reflexivity.
Qed.

(* The loop as a whole, whatever the values it meets: it writes the
   wled_preferences entry only, and there only the keys it visits; a key
   whose live value is not a mapping is never written, and visiting it
   ends the loop with an exception. *)
Lemma wled_merge_frame (fw : dict) (ks : list string) :
  forall (l : LedFx) (live : dict),
    ledfx_config l = VDict live ->
    (forall key, In key ks -> Dict.mem key fw = true) ->
    exists r live',
      wled_merge fw ks l = (r, with_config (VDict live') l) /\
      (forall k, k <> "wled_preferences"%string ->
                 Dict.get k live' = Dict.get k live) /\
      (forall w, Dict.get "wled_preferences" live = Some (VDict w) ->
         exists w',
           Dict.get "wled_preferences" live' = Some (VDict w') /\
           (forall key, ~ In key ks -> Dict.get key w' = Dict.get key w) /\
           (forall key old,
               Dict.get key w = Some old -> is_mapping old = false ->
               Dict.get key w' = Some old /\
               (In key ks -> exists e, r = Raise e))).
Proof.
  induction ks as [| key ks IH]; intros l live Hl Hks.
  - exists (Ok tt), live. simpl. unfold ret. rewrite <- Hl, with_config_same.
    split; [reflexivity | split; [reflexivity |]].
    intros w Hw. exists w. split; [exact Hw | split; [reflexivity |]].
    intros key old Hk _. split; [exact Hk | intros []].
  - assert (Hstop : forall e,
              wled_merge fw (key :: ks) l = (Raise e, l) ->
              (forall w, Dict.get "wled_preferences" live = Some (VDict w) ->
                         exists old, Dict.get key w = Some old /\ is_mapping old = false) ->
              exists r live',
                wled_merge fw (key :: ks) l = (r, with_config (VDict live') l) /\
                (forall k, k <> "wled_preferences"%string ->
                           Dict.get k live' = Dict.get k live) /\
                (forall w, Dict.get "wled_preferences" live = Some (VDict w) ->
                   exists w',
                     Dict.get "wled_preferences" live' = Some (VDict w') /\
                     (forall key0, ~ In key0 (key :: ks) ->
                                   Dict.get key0 w' = Dict.get key0 w) /\
                     (forall key0 old,
                         Dict.get key0 w = Some old -> is_mapping old = false ->
                         Dict.get key0 w' = Some old /\
                         (In key0 (key :: ks) -> exists e, r = Raise e)))).
    { intros e He _. exists (Raise e), live.
      rewrite <- Hl, with_config_same.
      split; [exact He | split; [reflexivity |]].
      intros w Hw. exists w. split; [exact Hw | split; [reflexivity |]].
      intros key0 old Hk _. split; [exact Hk | eauto]. }
    destruct (Dict.get "wled_preferences" live) as [prefs |] eqn:Hp.
    2: { destruct (wled_merge_no_prefs fw key ks l live Hl) as [e He].
         { intros w. rewrite Hp. discriminate. }
         apply (Hstop e He). intros w Hw. discriminate. }
    destruct (is_mapping prefs) eqn:Hmp.
    2: { destruct (wled_merge_no_prefs fw key ks l live Hl) as [e He].
         { intros w Hw. rewrite Hp in Hw. inversion Hw; subst. discriminate. }
         apply (Hstop e He). intros w Hw. inversion Hw; subst. discriminate. }
    destruct prefs as [| | | | | | w]; try discriminate. clear Hmp Hstop.
    destruct (mem_get key fw (Hks key (or_introl eq_refl))) as [new Hnew].
    pose proof (wled_merge_step fw key ks l live w new Hl Hp Hnew) as Hstep.
    (* a round that wrote w1 under the key and went on, or stopped there *)
    assert (Hgo : forall (t : value) (stop : option exn),
              Dict.get key w = None \/ (exists od, Dict.get key w = Some (VDict od)) ->
              wled_merge fw (key :: ks) l =
              (let l1 := with_config
                           (VDict (Dict.set "wled_preferences"
                                     (VDict (Dict.set key t w)) live)) l in
               match stop with
               | None => wled_merge fw ks l1
               | Some e => (Raise e, l1)
               end) ->
              exists r live',
                wled_merge fw (key :: ks) l = (r, with_config (VDict live') l) /\
                (forall k, k <> "wled_preferences"%string ->
                           Dict.get k live' = Dict.get k live) /\
                (forall w0, Some (VDict w) = Some (VDict w0) ->
                   exists w',
                     Dict.get "wled_preferences" live' = Some (VDict w') /\
                     (forall key0, ~ In key0 (key :: ks) ->
                                   Dict.get key0 w' = Dict.get key0 w0) /\
                     (forall key0 old,
                         Dict.get key0 w0 = Some old -> is_mapping old = false ->
                         Dict.get key0 w' = Some old /\
                         (In key0 (key :: ks) -> exists e, r = Raise e)))).
    { intros t stop Hkey Hrun.
      set (w1 := Dict.set key t w) in *.
      set (live1 := Dict.set "wled_preferences" (VDict w1) live) in *.
      assert (Hne : forall key0 old, Dict.get key0 w = Some old ->
                                     is_mapping old = false -> key0 <> key).
      { intros key0 old Hk Hm ->. destruct Hkey as [Hn | [od Ho]];
          rewrite Hk in *; [discriminate |]. inversion Ho; subst. discriminate. }
      destruct stop as [e |]; cbv zeta in Hrun.
      - exists (Raise e), live1. split; [exact Hrun | split].
        + intros k Hk. unfold live1. now apply DictFacts.get_set_neq.
        + intros w0 Hw0. inversion Hw0; subst w0. exists w1.
          split; [apply DictFacts.get_set_eq | split].
          * intros key0 Hnin. unfold w1. apply DictFacts.get_set_neq.
            intros ->. apply Hnin. now left.
          * intros key0 old Hk Hm. split; [| eauto].
            unfold w1. rewrite DictFacts.get_set_neq; [exact Hk |].
            eapply Hne; eauto.
      - destruct (IH (with_config (VDict live1) l) live1 eq_refl)
          as (r & live' & Hr & Htop & Hin).
        { intros key0 Hk. apply Hks. now right. }
        destruct (Hin w1) as (w' & Hw' & Hout & Hbad).
        { apply DictFacts.get_set_eq. }
        exists r, live'. split; [| split].
        + rewrite Hrun, Hr. reflexivity.
        + intros k Hk. rewrite Htop by assumption.
          unfold live1. now apply DictFacts.get_set_neq.
        + intros w0 Hw0. inversion Hw0; subst w0. exists w'.
          split; [exact Hw' | split].
          * intros key0 Hnin. rewrite Hout by (intros H; apply Hnin; now right).
            unfold w1. apply DictFacts.get_set_neq.
            intros ->. apply Hnin. now left.
          * intros key0 old Hk Hm.
            assert (Hk1 : Dict.get key0 w1 = Some old).
            { unfold w1. rewrite DictFacts.get_set_neq; [exact Hk |].
              eapply Hne; eauto. }
            destruct (Hbad key0 old Hk1 Hm) as [Hsame Hraise].
            split; [exact Hsame |].
            intros [<- | Hin0]; [| auto].
            exfalso. eapply Hne; eauto. }
    destruct (Dict.get key w) as [old |] eqn:Hk.
    + destruct (is_mapping old) eqn:Hmo.
      * destruct old as [| | | | | | od]; try discriminate.
        apply (Hgo (VDict (fst (dict_update od new))) (snd (dict_update od new))).
        -- right. eauto.
        -- rewrite Hstep. reflexivity.
      * assert (Hraise : wled_merge fw (key :: ks) l = (Raise AttributeError, l)).
        { rewrite Hstep. destruct old; try reflexivity. discriminate. }
        exists (Raise AttributeError), live.
        rewrite <- Hl, with_config_same.
        split; [exact Hraise | split; [reflexivity |]].
        intros w0 Hw0. inversion Hw0; subst w0. exists w.
        split; [exact Hp | split; [reflexivity |]].
        intros key0 old0 Hk0 _. split; [exact Hk0 | eauto].
    + apply (Hgo new None); [now left |]. rewrite Hstep. reflexivity.
Qed.

(** ** The merge phase on any store *)

Lemma touches_bind {A B} (c : M LedFx A) (k : A -> M LedFx B) :
  touches_config_only c -> (forall a, touches_config_only (k a)) ->
  touches_config_only (bind c k).
Proof.
  intros Hc Hk l. unfold bind. specialize (Hc l).
  destruct (c l) as [[a | e] l1]; simpl in *; [| exact Hc].
  destruct (Hk a l1) as [H1 H2]. destruct Hc as [H3 H4]. split; congruence.
Qed.

Lemma touches_lift {A} (r : result A) : touches_config_only (lift r).
Proof. intros l. split; reflexivity. Qed.

Lemma touches_ret {A} (a : A) : touches_config_only (ret a).
Proof. intros l. split; reflexivity. Qed.

Lemma touches_gets {A} (g : LedFx -> A) : touches_config_only (gets g).
Proof. intros l. split; reflexivity. Qed.

Lemma touches_with_config (c : value) : touches_config_only (modify (with_config c)).
Proof. intros l. split; reflexivity. Qed.

Lemma touches_raise_if (err : option exn) : touches_config_only (raise_if err).
Proof. destruct err; [apply touches_lift | apply touches_ret]. Qed.

Lemma touches_config_getitem (name : string) :
  touches_config_only (config_getitem name).
Proof.
  unfold config_getitem. apply touches_bind; [apply touches_gets | intros c].
  apply touches_lift.
Qed.

Lemma touches_config_store (name : string) (v : value) :
  touches_config_only (config_store name v).
Proof.
  unfold config_store. apply touches_bind; [apply touches_gets | intros c].
  apply touches_bind; [apply touches_lift | intros c'].
  apply touches_with_config.
Qed.

Lemma touches_config_item_update (name : string) (fragment : dict) :
  touches_config_only (config_item_update name fragment).
Proof.
  unfold config_item_update.
  apply touches_bind; [apply touches_config_getitem | intros target].
  apply touches_bind; [apply touches_lift | intros after].
  apply touches_bind; [apply touches_config_store | intros _].
  apply touches_raise_if.
Qed.

Lemma touches_config_update (fragment : dict) :
  touches_config_only (config_update fragment).
Proof.
  unfold config_update.
  apply touches_bind; [apply touches_gets | intros c].
  apply touches_bind; [apply touches_lift | intros after].
  apply touches_bind; [apply touches_with_config | intros _].
  apply touches_raise_if.
Qed.

Lemma touches_wled_merge (fw : dict) (ks : list string) :
  touches_config_only (wled_merge fw ks).
Proof.
  induction ks as [| key ks IH]; simpl; [apply touches_ret |].
  apply touches_bind; [apply touches_config_getitem | intros prefs].
  apply touches_bind; [apply touches_lift | intros present].
  apply touches_bind; [| intros _; exact IH].
  destruct present.
  - apply touches_bind; [apply touches_lift | intros target].
    apply touches_bind; [apply touches_lift | intros new].
    apply touches_bind; [apply touches_lift | intros after].
    apply touches_bind; [apply touches_lift | intros prefs'].
    apply touches_bind; [apply touches_config_store | intros _].
    apply touches_raise_if.
  - apply touches_bind; [apply touches_lift | intros new].
    apply touches_bind; [apply touches_lift | intros prefs'].
    apply touches_config_store.
Qed.

(* With an audio attribute that is None and a melbanks fragment that is not
   empty the merge phase cannot return, whatever the store holds: either a
   write of lines 251-262 raises, or line 272 does. *)
Lemma merge_fragments_audio_none (f : fragments) (x : value) (l : LedFx) :
  ledfx_audio l = AudioNone ->
  melbanks_config f <> [] ->
  exists e l',
    merge_fragments f (x, l) = (Raise e, (x, l')) /\
    ledfx_audio l' = AudioNone /\ history l' = history l.
Proof.
  intros Hau Hmel. unfold merge_fragments.
  unfold bind at 1. rewrite on_self_run.
  destruct (touches_config_item_update "audio" (audio_config f) l) as [Ha1 Hh1].
  destruct (config_item_update "audio" (audio_config f) l) as [[u | e] l1];
    simpl in Ha1, Hh1; simpl fst; simpl snd.
  2: { exists e, l1. split; [reflexivity | split; congruence]. }
  unfold bind at 1. rewrite on_self_run.
  destruct (touches_config_item_update "melbanks" (melbanks_config f) l1) as [Ha2 Hh2].
  destruct (config_item_update "melbanks" (melbanks_config f) l1) as [[u2 | e] l2];
    simpl in Ha2, Hh2; simpl fst; simpl snd.
  2: { exists e, l2. split; [reflexivity | split; congruence]. }
  unfold bind at 1. rewrite on_self_run.
  destruct (touches_config_update (core_config f) l2) as [Ha3 Hh3].
  destruct (config_update (core_config f) l2) as [[u3 | e] l3];
    simpl in Ha3, Hh3; simpl fst; simpl snd.
  2: { exists e, l3. split; [reflexivity | split; congruence]. }
  unfold bind at 1. rewrite on_self_run.
  destruct (touches_wled_merge (wled_config f) (Dict.keys (wled_config f)) l3)
    as [Ha4 Hh4].
  destruct (wled_merge (wled_config f) (Dict.keys (wled_config f)) l3)
    as [[u4 | e] l4]; simpl in Ha4, Hh4; simpl fst; simpl snd.
  2: { exists e, l4. split; [reflexivity | split; congruence]. }
  assert (Hau4 : ledfx_audio l4 = AudioNone) by congruence.
  exists AttributeError, l4. split; [| split; congruence].
  unfold bind at 1. rewrite on_self_run.
  unfold notify_audio, bind, gets, lift, ret. rewrite Hau4. simpl.
  destruct (melbanks_config f); [congruence | reflexivity].
Qed.

(* Lines 251-253 on a store whose audio and melbanks entries are mappings:
   the three shallow merges, and the store handed to the loop. *)
Lemma merge_heads_run
    (f : fragments) (x : value) (l : LedFx) (live a m : dict) :
  ledfx_config l = VDict live ->
  Dict.get "audio" live = Some (VDict a) ->
  Dict.get "melbanks" live = Some (VDict m) ->
  NoDup (Dict.keys (core_config f)) ->
  (forall k, In k (Dict.keys (core_config f)) ->
             k <> "audio"%string /\ k <> "wled_preferences"%string
             /\ k <> "melbanks"%string) ->
  exists live3,
    merge_fragments f (x, l) =
      (on_self (wled_merge (wled_config f) (Dict.keys (wled_config f))) ;;
       after_merge f) (x, with_config (VDict live3) l) /\
    Dict.get "audio" live3 = Some (VDict (Dict.update a (audio_config f))) /\
    Dict.get "melbanks" live3 = Some (VDict (Dict.update m (melbanks_config f))) /\
    Dict.get "wled_preferences" live3 = Dict.get "wled_preferences" live /\
    (forall k, k <> "audio"%string -> k <> "wled_preferences"%string ->
               k <> "melbanks"%string ->
               Dict.get k live3 =
               match Dict.get k (core_config f) with
               | Some v => Some v
               | None => Dict.get k live
               end).
Proof.
  intros Hl Ha Hm Hndc Hck.
  destruct l as [c au h0]. simpl in Hl. subst c.
  set (a1 := Dict.update a (audio_config f)).
  set (m1 := Dict.update m (melbanks_config f)).
  set (live1 := Dict.set "audio" (VDict a1) live).
  set (live2 := Dict.set "melbanks" (VDict m1) live1).
  set (live3 := Dict.update live2 (core_config f)).
  assert (Hm1 : Dict.get "melbanks" live1 = Some (VDict m)).
  { unfold live1. rewrite DictFacts.get_set_neq by discriminate. exact Hm. }
  assert (H3 : forall k, Dict.get k live3 =
                         match Dict.get k (core_config f) with
                         | Some v => Some v
                         | None => Dict.get k live2
                         end).
  { intros k. unfold live3. now apply DictFacts.get_update. }
  assert (Hsub : forall k, In k ["audio"; "melbanks"; "wled_preferences"]%string ->
                           Dict.get k live3 = Dict.get k live2).
  { intros k Hk. rewrite H3.
    destruct (Dict.get k (core_config f)) eqn:Hg; auto.
    apply DictFacts.get_Some_In, Hck in Hg. simpl in Hk.
    intuition congruence. }
  exists live3. split; [| split; [| split; [| split]]].
  - unfold merge_fragments. fold (after_merge f).
    unfold bind at 1.
    rewrite on_self_run,
      (config_item_update_run "audio" _ live a (mkLedFx (VDict live) au h0)
         eq_refl Ha).
    unfold with_config. simpl. fold a1. fold live1.
    unfold bind at 1.
    rewrite on_self_run,
      (config_item_update_run "melbanks" _ live1 m (mkLedFx (VDict live1) au h0)
         eq_refl Hm1).
    unfold with_config. simpl. fold m1. fold live2.
    unfold bind at 1.
    rewrite on_self_run,
      (config_update_run _ live2 (mkLedFx (VDict live2) au h0) eq_refl).
    unfold with_config. simpl. fold live3. reflexivity.
  - rewrite Hsub by (simpl; auto). unfold live2, live1.
    rewrite DictFacts.get_set_neq by discriminate. apply DictFacts.get_set_eq.
  - rewrite Hsub by (simpl; auto). unfold live2. apply DictFacts.get_set_eq.
  - rewrite Hsub by (simpl; auto). unfold live2, live1.
    now rewrite !DictFacts.get_set_neq by discriminate.
  - intros k H1 H2 H3'. rewrite H3. unfold live2, live1.
    now rewrite !DictFacts.get_set_neq by congruence.
Qed.

(* The merge phase on a store whose audio and melbanks entries are mappings,
   whatever the wled_preferences loop meets: the three shallow merges are in
   the store whether the call returns or not, a call that returns has made
   exactly the notifications, a call that raises has made none. *)
Lemma merge_fragments_general
    (f : fragments) (x : value) (l : LedFx) (live a m : dict) :
  ledfx_config l = VDict live ->
  Dict.get "audio" live = Some (VDict a) ->
  Dict.get "melbanks" live = Some (VDict m) ->
  NoDup (Dict.keys (core_config f)) ->
  (forall k, In k (Dict.keys (core_config f)) ->
             k <> "audio"%string /\ k <> "wled_preferences"%string
             /\ k <> "melbanks"%string) ->
  exists r h live',
    merge_fragments f (x, l) =
      (r, (x, mkLedFx (VDict live') (ledfx_audio l) (history l ++ h))) /\
    Dict.get "audio" live' = Some (VDict (Dict.update a (audio_config f))) /\
    Dict.get "melbanks" live' = Some (VDict (Dict.update m (melbanks_config f))) /\
    (forall k, k <> "audio"%string -> k <> "wled_preferences"%string ->
               k <> "melbanks"%string ->
               Dict.get k live' =
               match Dict.get k (core_config f) with
               | Some v => Some v
               | None => Dict.get k live
               end) /\
    (r = Ok VNull /\
     h = notifications (ledfx_audio l) f
           (VDict (Dict.update a (audio_config f)))
           (VDict (Dict.update m (melbanks_config f))) x
     \/ (exists e, r = Raise e) /\ h = []) /\
    (forall w, Dict.get "wled_preferences" live = Some (VDict w) ->
       exists w',
         Dict.get "wled_preferences" live' = Some (VDict w') /\
         (forall key, Dict.get key (wled_config f) = None ->
                      Dict.get key w' = Dict.get key w) /\
         (forall key old,
             Dict.get key w = Some old -> is_mapping old = false ->
             Dict.get key w' = Some old /\
             (In key (Dict.keys (wled_config f)) -> exists e, r = Raise e))).
Proof.
  intros Hl Ha Hm Hndc Hck.
  destruct (merge_heads_run f x l live a m Hl Ha Hm Hndc Hck)
    as (live3 & Hrun & Ha3 & Hm3 & Hw3 & Hcore3).
  destruct (wled_merge_frame (wled_config f) (Dict.keys (wled_config f))
              (with_config (VDict live3) l) live3 eq_refl)
    as (rw & live4 & Hw & Htop & Hin).
  { intros key Hk. now apply DictFacts.mem_In. }
  rewrite with_config_twice in Hw.
  assert (Ha4 : Dict.get "audio" live4 = Some (VDict (Dict.update a (audio_config f)))).
  { rewrite Htop by discriminate. exact Ha3. }
  assert (Hm4 : Dict.get "melbanks" live4 =
                Some (VDict (Dict.update m (melbanks_config f)))).
  { rewrite Htop by discriminate. exact Hm3. }
  assert (Hcore4 : forall k, k <> "audio"%string -> k <> "wled_preferences"%string ->
               k <> "melbanks"%string ->
               Dict.get k live4 =
               match Dict.get k (core_config f) with
               | Some v => Some v
               | None => Dict.get k live
               end).
  { intros k H1 H2 H3. rewrite Htop by assumption. now apply Hcore3. }
  assert (Hwled : forall r : result value,
             (forall e, rw = Raise e -> r = Raise e) ->
             forall w, Dict.get "wled_preferences" live = Some (VDict w) ->
             exists w',
               Dict.get "wled_preferences" live4 = Some (VDict w') /\
               (forall key, Dict.get key (wled_config f) = None ->
                            Dict.get key w' = Dict.get key w) /\
               (forall key old,
                   Dict.get key w = Some old -> is_mapping old = false ->
                   Dict.get key w' = Some old /\
                   (In key (Dict.keys (wled_config f)) -> exists e, r = Raise e))).
  { intros r Hr w Hgw. rewrite <- Hw3 in Hgw.
    destruct (Hin w Hgw) as (w' & Hw' & Hout & Hbad).
    exists w'. split; [exact Hw' | split].
    - intros key Hk. apply Hout. now apply DictFacts.get_None.
    - intros key old Hk Hmo. destruct (Hbad key old Hk Hmo) as [Hsame Hraise].
      split; [exact Hsame |]. intros Hkin.
      destruct (Hraise Hkin) as [e He]. exists e. now apply Hr. }
  assert (Hstep : merge_fragments f (x, l) =
            match rw with
            | Ok _ => after_merge f (x, with_config (VDict live4) l)
            | Raise e => (Raise e, (x, with_config (VDict live4) l))
            end).
  { rewrite Hrun. unfold bind at 1. rewrite on_self_run, Hw. simpl fst. simpl snd.
    destruct rw; reflexivity. }
  destruct rw as [u | e].
  - rewrite (after_merge_run f x (with_config (VDict live4) l) live4 _ _
               eq_refl Ha4 Hm4) in Hstep.
    simpl ledfx_audio in Hstep. simpl history in Hstep.
    simpl ledfx_config in Hstep.
    destruct (ledfx_audio l) eqn:Hau.
    + eexists (Ok VNull), _, live4.
      split; [exact Hstep | split; [exact Ha4 | split; [exact Hm4 |
        split; [exact Hcore4 | split]]]].
      * left. split; reflexivity.
      * apply Hwled. intros e He. discriminate.
    + destruct (Dict.truthy (melbanks_config f)) eqn:Hmel.
      * exists (Raise AttributeError), [], live4.
        split; [| split; [exact Ha4 | split; [exact Hm4 |
          split; [exact Hcore4 | split]]]].
        -- rewrite Hstep, app_nil_r. unfold with_config. now rewrite Hau.
        -- right. split; [eauto | reflexivity].
        -- apply Hwled. intros e He. discriminate.
      * eexists (Ok VNull), _, live4.
        split; [exact Hstep | split; [exact Ha4 | split; [exact Hm4 |
          split; [exact Hcore4 | split]]]].
        -- left. split; reflexivity.
        -- apply Hwled. intros e He. discriminate.
    + eexists (Ok VNull), _, live4.
      split; [exact Hstep | split; [exact Ha4 | split; [exact Hm4 |
        split; [exact Hcore4 | split]]]].
      * left. split; reflexivity.
      * apply Hwled. intros e He. discriminate.
  - exists (Raise e), [], live4.
    split; [| split; [exact Ha4 | split; [exact Hm4 |
      split; [exact Hcore4 | split]]]].
    + rewrite Hstep, app_nil_r. reflexivity.
    + right. split; [eauto | reflexivity].
    + apply Hwled. intros e0 He. inversion He. reflexivity.
Qed.

(* A merge phase that returns ran on a store whose audio and melbanks
   entries are mappings. *)
Lemma merge_fragments_Ok_store (f : fragments) (x : value) (l : LedFx) (v : value) :
  fst (merge_fragments f (x, l)) = Ok v ->
  exists live a m,
    ledfx_config l = VDict live /\
    Dict.get "audio" live = Some (VDict a) /\
    Dict.get "melbanks" live = Some (VDict m).
Proof.
  unfold merge_fragments. unfold bind at 1. rewrite on_self_run.
  destruct (ledfx_config l) as [| | | | | | live] eqn:Hl;
    try (unfold config_item_update, config_getitem, bind, gets, lift;
         rewrite Hl; simpl; discriminate).
  destruct (Dict.get "audio" live) as [audio |] eqn:Ha.
  2: { unfold config_item_update, config_getitem, bind, gets, lift.
       rewrite Hl. simpl. rewrite Ha. simpl. discriminate. }
  destruct audio as [| | | | | | a];
    try (unfold config_item_update, config_getitem, bind, gets, lift;
         rewrite Hl; simpl; rewrite Ha; simpl; discriminate).
  rewrite (config_item_update_run "audio" _ live a l Hl Ha).
  simpl fst. simpl snd.
  unfold bind at 1. rewrite on_self_run.
  destruct (Dict.get "melbanks" live) as [melbanks |] eqn:Hm.
  2: { unfold config_item_update, config_getitem, bind, gets, lift.
       simpl. rewrite DictFacts.get_set_neq by discriminate.
       rewrite Hm. simpl. discriminate. }
  destruct melbanks as [| | | | | | m];
    try (unfold config_item_update, config_getitem, bind, gets, lift;
         simpl; rewrite DictFacts.get_set_neq by discriminate;
         rewrite Hm; simpl; discriminate).
  intros _. exists live, a, m. auto.
Qed.



(* The end-to-end example: brightness overwritten, dev1 merged one level
   down, dev2 added, everything else as it was. *)
Example update_config_end_to_end :
  update_config Demo.collaborators (VDict Demo.update, Demo.live) =
  (Ok VNull,
   (VDict [("global_brightness", VFloat 4605380978949069210)],
    {| ledfx_config :=
         VDict [("global_brightness", VFloat 4605380978949069210);
                ("port", VInt 8888);
                ("audio", VDict [("sample_rate", VInt 60)]);
                ("melbanks", VDict [("max_frequencies", VInt 350)]);
                ("wled_preferences",
                 VDict [("dev1", VDict [("ip", VStr "1.2.3.4");
                                        ("timeout", VInt 5)]);
                        ("dev2", VDict [("ip", VStr "1.2.3.5")])])];
       ledfx_audio := AudioSource;
       history :=
         [fire_event (VDict [("global_brightness", VFloat 4605380978949069210)])]
    |})).
Proof. reflexivity. Qed.

(** ** What [update_config] returns and what it leaves of its argument *)







Lemma keeps_arg_on_self {A} (c : M LedFx A) : keeps_arg (on_self c).
Proof. intros x l. rewrite on_self_run. reflexivity. Qed.

Lemma keeps_arg_ret {A} (a : A) : keeps_arg (ret a).
Proof. intros x l. reflexivity. Qed.

Lemma keeps_arg_arg_get : keeps_arg arg_get.
Proof. intros x l. reflexivity. Qed.

Lemma keeps_arg_bind {A B} (c : M Frame A) (k : A -> M Frame B) :
  keeps_arg c -> (forall a, keeps_arg (k a)) -> keeps_arg (bind c k).
Proof.
  intros Hc Hk x l. unfold bind. specialize (Hc x l).
  destruct (c (x, l)) as [[a | e] [x1 l1]]; simpl in *; subst x1; auto.
  apply Hk.
Qed.

Lemma keeps_arg_merge_fragments (f : fragments) : keeps_arg (merge_fragments f).
Proof.
  unfold merge_fragments.
  repeat (apply keeps_arg_bind; [| intros ?]);
    try apply keeps_arg_on_self; try apply keeps_arg_ret.
  destruct (Dict.truthy (core_config f)); [| apply keeps_arg_ret].
  apply keeps_arg_bind; [apply keeps_arg_arg_get | intros ?].
  apply keeps_arg_on_self.
Qed.

(* The caller's mapping after the call, whatever the outcome. *)
Lemma update_config_arg (E : Collaborators) (config : dict) (l : LedFx) :
  exists stage,
    fst (snd (update_config E (VDict config, l))) = VDict (popped_upto stage config).
Proof.
  unfold update_config, bind. rewrite validate_fragments_run.
  destruct (validated_audio E config); [| exists 0; reflexivity].
  destruct (validated_wled E config); [| exists 1; reflexivity].
  destruct (validated_melbanks E config); [| exists 2; reflexivity].
  destruct (validated_core E config); [| exists 2; reflexivity].
  exists 2. apply keeps_arg_merge_fragments.
Qed.

Lemma In_keys_residual (config : dict) (k : string) :
  In k (Dict.keys (residual config)) <->
  In k (Dict.keys config) /\
  k <> "audio"%string /\ k <> "wled_preferences"%string /\ k <> "melbanks"%string.
Proof. unfold residual. rewrite !DictFacts.In_keys_remove. tauto. Qed.

(** C10 (the caller's mapping is consumed).  Whatever its outcome,
    [update_config] leaves its caller's mapping without the key ['audio'] and
    with no key it did not have.  When it returns, the mapping has lost
    ['audio'], ['wled_preferences'] and ['melbanks'] and kept every other
    key; the event that [put] fires next carries that residual mapping, and
    the answer of [put] is decided by [check_need_restart] on it. *)
Theorem put_observes_residual (E : Collaborators) (config : dict) (l : LedFx) :
  (exists left,
      fst (snd (update_config E (VDict config, l))) = VDict left /\
      ~ In "audio"%string (Dict.keys left) /\
      incl (Dict.keys left) (Dict.keys config)) /\
  (forall v,
      fst (update_config E (VDict config, l)) = Ok v ->
      fst (snd (update_config E (VDict config, l))) = VDict (residual config) /\
      (forall k, In k (Dict.keys (residual config)) <->
                 In k (Dict.keys config) /\ k <> "audio"%string /\
                 k <> "wled_preferences"%string /\ k <> "melbanks"%string) /\
      exists need_restart,
        check_need_restart E (VDict (residual config)) = Ok need_restart /\
        put E (Ok (VDict config)) l =
        (Ok (if need_restart : bool then restarting else updated),
         let l1 := snd (snd (update_config E (VDict config, l))) in
         let l2 := record (save_config (ledfx_config l1))
                     (record (fire_event (VDict (residual config))) l1) in
         if need_restart then record (call_soon_threadsafe_stop 4) l2 else l2)).
Proof.
  split.
  - destruct (update_config_arg E config l) as [stage Hs].
    exists (popped_upto stage config). split; [exact Hs |].
    assert (Hsub : forall k, In k (Dict.keys (popped_upto stage config)) ->
                             In k (Dict.keys config) /\ k <> "audio"%string).
    { intros k. destruct stage as [| [| n]]; simpl; unfold residual;
        rewrite !DictFacts.In_keys_remove; tauto. }
    split.
    + intros Hin. apply Hsub in Hin. tauto.
    + intros k Hin. now apply Hsub.
  - intros v Hv.
    destruct (update_config_Ok_inv E config l v Hv) as [f Hf].
    pose proof (update_config_run E config l f Hf) as Hrun.
    pose proof (keeps_arg_merge_fragments f (VDict (residual config)) l) as Harg.
    rewrite <- Hrun in Harg.
    split; [exact Harg | split; [apply In_keys_residual |]].
    apply validate_fragments_Ok_inv in Hf as (_ & _ & _ & _ & Hcore).
    unfold validated_core in Hcore.
    eexists. split; [apply (check_need_restart_Ok E _ _ Hcore) |].
    pose proof (check_need_restart_Ok E _ _ Hcore) as Hcheck.
    destruct (update_config E (VDict config, l)) as [r [x l1]] eqn:Hu.
    simpl in Hv, Harg. subst r x.
    unfold put, put_body, try_except.
    unfold bind at 1. rewrite Hu.
    unfold bind at 1, arg_get at 1, gets at 1. simpl fst.
    unfold bind at 1. rewrite on_self_run. simpl fst. simpl snd.
    unfold bind at 1. rewrite on_self_run. simpl fst. simpl snd.
    unfold bind at 1. rewrite on_self_run. simpl fst. simpl snd.
    unfold bind at 1, arg_get at 1, gets at 1. simpl fst.
    unfold bind at 1, lift at 1. rewrite Hcheck.
    destruct (Dict.truthy (core_config f) && _); reflexivity.
Qed.

Lemma put_observes_residual_witness :
  fst (snd (update_config Demo.collaborators (VDict Demo.update, Demo.live)))
  = VDict (residual Demo.update) /\
  (forall k, In k (Dict.keys (residual Demo.update)) <->
             In k (Dict.keys Demo.update) /\ k <> "audio"%string /\
             k <> "wled_preferences"%string /\ k <> "melbanks"%string) /\
  exists need_restart,
    check_need_restart Demo.collaborators (VDict (residual Demo.update))
    = Ok need_restart /\
    put Demo.collaborators (Ok (VDict Demo.update)) Demo.live =
    (Ok (if need_restart : bool then restarting else updated),
     let l1 := snd (snd (update_config Demo.collaborators
                           (VDict Demo.update, Demo.live))) in
     let l2 := record (save_config (ledfx_config l1))
                 (record (fire_event (VDict (residual Demo.update))) l1) in
     if need_restart then record (call_soon_threadsafe_stop 4) l2 else l2).
Proof.
  apply (proj2 (put_observes_residual Demo.collaborators Demo.update Demo.live)
           VNull).
  reflexivity.
Defined.

(* The submitted wled_preferences fragment is gone from what put hands on:
   the event after update_config carries the core key alone, and the exempt
   key global_brightness keeps the service running. *)
Example put_end_to_end :
  put Demo.collaborators (Ok (VDict Demo.update)) Demo.live =
  (Ok updated,
   {| ledfx_config :=
        VDict [("global_brightness", VFloat 4605380978949069210);
               ("port", VInt 8888);
               ("audio", VDict [("sample_rate", VInt 60)]);
               ("melbanks", VDict [("max_frequencies", VInt 350)]);
               ("wled_preferences",
                VDict [("dev1", VDict [("ip", VStr "1.2.3.4");
                                       ("timeout", VInt 5)]);
                       ("dev2", VDict [("ip", VStr "1.2.3.5")])])];
      ledfx_audio := AudioSource;
      history :=
        [fire_event (VDict [("global_brightness", VFloat 4605380978949069210)]);
         fire_event (VDict [("global_brightness", VFloat 4605380978949069210)]);
         save_config
           (VDict [("global_brightness", VFloat 4605380978949069210);
                   ("port", VInt 8888);
                   ("audio", VDict [("sample_rate", VInt 60)]);
                   ("melbanks", VDict [("max_frequencies", VInt 350)]);
                   ("wled_preferences",
                    VDict [("dev1", VDict [("ip", VStr "1.2.3.4");
                                           ("timeout", VInt 5)]);
                           ("dev2", VDict [("ip", VStr "1.2.3.5")])])])]
   |}).
Proof. reflexivity. Qed.

(** ** Bulk import and reset *)

Section BulkImport.

Variable E : Collaborators.

Lemma version_mismatch_caught (config : value) :
  version_mismatch E config -> version_matches E config = Ok false.
Proof.
  unfold version_matches.
  intros [(d & -> & Hg) | (tag & v1 & v2 & Hg & H1 & H2 & Hne)].
  - simpl. now rewrite Hg.
  - rewrite Hg. simpl. rewrite H1. simpl. rewrite H2. simpl.
    destruct (list_eq_dec Z.eq_dec v1 v2); [contradiction | reflexivity].
Qed.

Lemma post_migration_failure_run (config : value) (l : LedFx) (e : exn) :
  version_matches E config = Ok false ->
  migrate_config E config = Raise e ->
  post E (Ok config) l =
  (Ok (internal_error (migration_failed e) (Some "error")), l).
Proof.
  intros Hv Hm. unfold post, try_except, bind, lift, ret.
  now rewrite Hv, Hm.
Qed.






End BulkImport.

Section ImportFacts.

Variable E : Collaborators.

Lemma post_commit_dict_run (config : dict) (l : LedFx) :
  post_commit E (VDict config) l =
  match imported_parts E config with
  | Raise e => (Raise e, record (create_backup "IMPORT") l)
  | Ok (ac, wc, mc, VDict core) =>
      let c := VDict (Dict.set "melbanks" mc
                        (Dict.set "wled_preferences" wc
                           (Dict.set "audio" ac core))) in
      (Ok imported,
       mkLedFx c (ledfx_audio l)
         (history l ++ [create_backup "IMPORT"; config_assigned c;
                        save_config c; call_soon_threadsafe_stop 4]))
  | Ok _ => (Raise TypeError, record (create_backup "IMPORT") l)
  end.
Proof.
  unfold post_commit, imported_parts.
  unfold bind at 1, emit at 1, modify at 1.
  unfold bind at 1, lift at 1. rewrite pop_of_dict. simpl fst. simpl snd.
  fold (raw_fragment "audio" config).
  unfold bind at 1, lift at 1.
  destruct (AUDIO_CONFIG_SCHEMA E (raw_fragment "audio" config)) as [ac |];
    [| reflexivity].
  unfold bind at 1, lift at 1. rewrite pop_of_dict. simpl fst. simpl snd.
  unfold raw_fragment at 1. rewrite pop_fst_remove by discriminate.
  fold (raw_fragment "wled_preferences" config).
  unfold bind at 1, lift at 1.
  destruct (WLED_CONFIG_SCHEMA E (raw_fragment "wled_preferences" config))
    as [wc |]; [| reflexivity].
  unfold bind at 1, lift at 1. rewrite pop_of_dict. simpl fst. simpl snd.
  unfold raw_fragment at 1. rewrite !pop_fst_remove by discriminate.
  fold (raw_fragment "melbanks" config).
  unfold bind at 1, lift at 1.
  destruct (Melbanks_CONFIG_SCHEMA E (raw_fragment "melbanks" config))
    as [mc |]; [| reflexivity].
  fold (residual config).
  unfold bind at 1, lift at 1.
  destruct (CORE_CONFIG_SCHEMA E (VDict (residual config))) as [core |];
    [| reflexivity].
  simpl rbind.
  destruct core; try reflexivity.
  unfold bind, lift, modify, emit, gets, ret, record, with_config, imported.
  simpl. rewrite <- !app_assoc. reflexivity.
Qed.

Lemma post_settled (config : value) (l : LedFx) :
  version_matches E config = Ok true ->
  post E (Ok config) l = try_except (post_commit E config) post_handler l.
Proof.
  intros Hv. unfold post, try_except, bind, lift. now rewrite Hv.
Qed.

Lemma version_matches_current (config : dict) :
  Dict.get "configuration_version" config = Some (VStr (CONFIGURATION_VERSION E)) ->
  is_ok (parse_version E (VStr (CONFIGURATION_VERSION E))) = true ->
  version_matches E (VDict config) = Ok true.
Proof.
  intros Hg Hp. unfold version_matches. simpl. rewrite Hg.
  destruct (parse_version E (VStr (CONFIGURATION_VERSION E))) as [v |] eqn:Hq;
    [| discriminate].
  simpl. rewrite ?Hq. simpl.
  destruct (list_eq_dec Z.eq_dec v v); [reflexivity | contradiction].
Qed.

End ImportFacts.


(** C6 (migration failure).  When the import config is not at the current
    version (no tag, another version, or the assertion of line 121 caught in
    any other way) and [migrate_config] raises, [post] answers with the
    migration error and the service object is what it was: no backup in the
    history, the live configuration untouched, nothing saved, no restart
    scheduled. *)
Theorem post_migration_failure
    (E : Collaborators) (config : value) (l : LedFx) (e : exn) :
  version_mismatch E config \/ version_matches E config = Ok false ->
  migrate_config E config = Raise e ->
  post E (Ok config) l =
  (Ok (internal_error
         (Fmt "Failed to migrate import config to the new standard: " e)
         (Some "error"%string)),
   l).
Proof.
  intros Hv Hm. apply post_migration_failure_run; auto.
  destruct Hv as [Hv | Hv]; auto. now apply version_mismatch_caught.
Qed.

Lemma post_migration_failure_witness :
  post Demo.collaborators
    (Ok (VDict [("configuration_version", VStr "1.9.0"); ("port", VInt 80)]))
    Demo.live =
  (Ok (internal_error
         (Fmt "Failed to migrate import config to the new standard: "
            (OtherException "KeyError" "no migration for this version"))
         (Some "error"%string)),
   Demo.live).
Proof.
  apply (post_migration_failure Demo.collaborators).
  - left. right. exists (VStr "1.9.0"), [49; 46; 57; 46; 48]%Z,
      [50; 46; 48; 46; 49; 48]%Z.
    repeat split; try reflexivity. discriminate.
  - reflexivity.
Defined.

(* A legacy config without any version tag goes the same way. *)
Example post_migration_failure_legacy :
  post Demo.collaborators (Ok (VDict [("port", VInt 80)])) Demo.live =
  (Ok (internal_error
         (migration_failed (OtherException "KeyError" "no migration for this version"))
         (Some "error"%string)),
   Demo.live).
Proof. reflexivity. Qed.



Example delete_resets_to_defaults :
  delete Demo.collaborators Demo.live =
  (Ok (request_success (Some "success"%string)
         (Some "Config reset to default values, LedFx restarting."%string)),
   {| ledfx_config := VDict [("host", VStr "0.0.0.0"); ("port", VInt 8888);
                             ("audio", VDict []); ("melbanks", VDict []);
                             ("wled_preferences", VDict [])];
      ledfx_audio := AudioSource;
      history :=
        [create_backup "DELETE";
         config_assigned (VDict [("host", VStr "0.0.0.0"); ("port", VInt 8888);
                                 ("audio", VDict []); ("melbanks", VDict []);
                                 ("wled_preferences", VDict [])]);
         save_config (VDict [("host", VStr "0.0.0.0"); ("port", VInt 8888);
                             ("audio", VDict []); ("melbanks", VDict []);
                             ("wled_preferences", VDict [])]);
         call_soon_threadsafe_stop 4] |}).
Proof. reflexivity. Qed.

Example post_imports_current_version :
  post Demo.collaborators
    (Ok (VDict [("configuration_version", VStr "2.0.10"); ("port", VInt 80);
                ("audio", VDict [("sample_rate", VInt 30)])]))
    Demo.live =
  (Ok imported,
   {| ledfx_config :=
        VDict [("host", VStr "0.0.0.0"); ("port", VInt 80);
               ("audio", VDict [("sample_rate", VInt 30)]);
               ("melbanks", VDict []); ("wled_preferences", VDict []);
               ("configuration_version", VStr "2.0.10")];
      ledfx_audio := AudioSource;
      history :=
        [create_backup "IMPORT";
         config_assigned
           (VDict [("host", VStr "0.0.0.0"); ("port", VInt 80);
                   ("audio", VDict [("sample_rate", VInt 30)]);
                   ("melbanks", VDict []); ("wled_preferences", VDict []);
                   ("configuration_version", VStr "2.0.10")]);
         save_config
           (VDict [("host", VStr "0.0.0.0"); ("port", VInt 80);
                   ("audio", VDict [("sample_rate", VInt 30)]);
                   ("melbanks", VDict []); ("wled_preferences", VDict []);
                   ("configuration_version", VStr "2.0.10")]);
         call_soon_threadsafe_stop 4] |}).
Proof. reflexivity. Qed.

(* A schema error after the backup: the backup stays, the live
   configuration is not replaced. *)
Example post_rejected_after_backup :
  post Demo.collaborators
    (Ok (VDict [("configuration_version", VStr "2.0.10");
                ("melbanks", VDict [("max_frequencies", VStr "high")])]))
    Demo.live =
  (Ok (internal_error (Fmt "Error loading config: " (MultipleInvalid "expected int"))
         (Some "error"%string)),
   record (create_backup "IMPORT") Demo.live).
Proof. reflexivity. Qed.

(** * Further properties of the code *)

(** ** The PUT handler as a whole *)

Lemma put_handler_run (e : exn) (s : Frame) :
  put_handler e s = (Ok (put_error e), s).
Proof. destruct e; reflexivity. Qed.

(* put, step by step after update_config. *)
Lemma put_run (E : Collaborators) (config : value) (l : LedFx) :
  put E (Ok config) l =
  match update_config E (config, l) with
  | (Raise e, s) => (Ok (put_error e), snd s)
  | (Ok _, s) =>
      let l2 := record (save_config (ledfx_config (snd s)))
                  (record (fire_event (fst s)) (snd s)) in
      match check_need_restart E (fst s) with
      | Ok true => (Ok restarting, record (call_soon_threadsafe_stop 4) l2)
      | Ok false => (Ok updated, l2)
      | Raise e => (Ok (put_error e), l2)
      end
  end.
Proof.
  unfold put, put_body, try_except.
  unfold bind at 1.
  destruct (update_config E (config, l)) as [[v | e] [x l1]].
  2: { rewrite put_handler_run. reflexivity. }
  unfold bind at 1, arg_get at 1, gets at 1. simpl fst.
  unfold bind at 1. rewrite on_self_run. simpl fst. simpl snd.
  unfold bind at 1. rewrite on_self_run. simpl fst. simpl snd.
  unfold bind at 1. rewrite on_self_run. simpl fst. simpl snd.
  unfold bind at 1, arg_get at 1, gets at 1. simpl fst.
  unfold bind at 1, lift at 1.
  destruct (check_need_restart E x) as [[|] | e].
  - reflexivity.
  - reflexivity.
  - rewrite put_handler_run. reflexivity.
Qed.

Lemma update_config_not_a_mapping (E : Collaborators) (config : value) (l : LedFx) :
  is_mapping config = false ->
  update_config E (config, l) =
  (Raise (match config with VList _ => TypeError | _ => AttributeError end),
   (config, l)).
Proof.
  intros H. unfold update_config, validate_fragments.
  unfold bind at 1. unfold bind at 1. unfold arg_pop.
  destruct config; try discriminate; reflexivity.
Qed.


Lemma update_config_Ok_mapping
    (E : Collaborators) (config : value) (l : LedFx) (v : value) :
  fst (update_config E (config, l)) = Ok v ->
  exists d f,
    config = VDict d /\
    fst (validate_fragments E (VDict d, l)) = Ok f /\
    fst (snd (update_config E (config, l))) = VDict (residual d) /\
    check_need_restart E (VDict (residual d)) =
      Ok (Dict.truthy (core_config f)
          && negb (existsb (fun key => Dict.mem key (core_config f))
                     (CORE_CONFIG_KEYS_NO_RESTART E))).
Proof.
  intros Hv. destruct (is_mapping config) eqn:Hm.
  2: { rewrite (update_config_not_a_mapping E config l Hm) in Hv. discriminate. }
  destruct config as [| | | | | | d]; try discriminate.
  destruct (update_config_Ok_inv E d l v Hv) as [f Hf].
  exists d, f. split; [reflexivity | split; [exact Hf |]].
  rewrite (update_config_run E d l f Hf).
  split; [apply keeps_arg_merge_fragments |].
  apply validate_fragments_Ok_inv in Hf as (_ & _ & _ & _ & Hc).
  now apply check_need_restart_Ok.
Qed.

(** X1.  The PUT handler never lets an exception out: whatever the request
    body (unreadable, not an object, rejected by a schema) and whatever the
    state of the service, it answers with a response. *)
Theorem put_never_raises
    (E : Collaborators) (request_json : result value) (l : LedFx) :
  exists r, fst (put E request_json l) = Ok r.
Proof.
  destruct request_json as [config | e].
  - rewrite put_run.
    destruct (update_config E (config, l)) as [[v | e] s]; [| simpl; eauto].
    destruct (check_need_restart E (fst s)) as [[|] | e]; simpl; eauto.
  - destruct e; simpl; eauto.
Qed.



(** X3.  A request body that is not a JSON object, or whose ['audio'] entry
    is not one, is answered with internal_error (a TypeError for a list, an
    AttributeError otherwise), not with invalid_request; the service is
    untouched. *)
Theorem put_malformed_shape (E : Collaborators) (l : LedFx) :
  (forall config,
      is_mapping config = false ->
      put E (Ok config) l =
      (Ok (internal_error
             (Fmt EmptyString
                (match config with VList _ => TypeError | _ => AttributeError end))
             None),
       l)) /\
  (forall config v,
      Dict.get "audio" config = Some v -> is_mapping v = false ->
      put E (Ok (VDict config)) l =
      (Ok (internal_error (Fmt EmptyString AttributeError) None), l)).
Proof.
  split.
  - intros config H. rewrite put_run, (update_config_not_a_mapping E config l H).
    destruct config; try discriminate; reflexivity.
  - intros config v Hg Hv.
    assert (Ha : validated_audio E config = Raise AttributeError).
    { unfold validated_audio, raw_fragment, Dict.pop. rewrite Hg. simpl.
      destruct v; try discriminate; reflexivity. }
    rewrite put_run. unfold update_config, bind.
    rewrite validate_fragments_run, Ha. reflexivity.
Qed.

Lemma put_malformed_shape_witness :
  put Demo.collaborators (Ok (VDict [("audio", VInt 5); ("port", VInt 80)])) Demo.live =
  (Ok (internal_error (Fmt EmptyString AttributeError) None), Demo.live).
Proof.
  apply (proj2 (put_malformed_shape Demo.collaborators Demo.live)
           [("audio", VInt 5); ("port", VInt 80)] (VInt 5)).
  - reflexivity.
  - reflexivity.
Defined.

(** X4.  What PUT saves is what is live.  When PUT answers success, the
    last thing it did before answering (and before scheduling the restart,
    if it schedules one) was to save the live configuration it leaves
    behind.  When it answers anything else it has saved nothing, fired no
    event of its own and scheduled no restart: the service is as
    [update_config] left it. *)
Theorem put_saves_live_config
    (E : Collaborators) (config : value) (l : LedFx) (r : response) :
  fst (put E (Ok config) l) = Ok r ->
  (r = updated ->
   exists h, history (snd (put E (Ok config) l)) =
             h ++ [save_config (ledfx_config (snd (put E (Ok config) l)))]) /\
  (r = restarting ->
   exists h, history (snd (put E (Ok config) l)) =
             h ++ [save_config (ledfx_config (snd (put E (Ok config) l)));
                   call_soon_threadsafe_stop 4]) /\
  (r <> updated -> r <> restarting ->
   snd (put E (Ok config) l) = snd (snd (update_config E (config, l)))).
Proof.
  rewrite put_run.
  destruct (update_config E (config, l)) as [[v | e] [x l1]] eqn:Hu.
  2: { simpl. intros Hr. inversion Hr; subst r.
       split; [| split]; auto; intros H; destruct e; discriminate H. }
  assert (Hv : fst (update_config E (config, l)) = Ok v) by (now rewrite Hu).
  destruct (update_config_Ok_mapping E config l v Hv) as (d & f & -> & _ & Hx & Hc).
  rewrite Hu in Hx. simpl in Hx. subst x. simpl fst. simpl snd. rewrite Hc.
  destruct (Dict.truthy (core_config f) && _); simpl; intros Hr;
    inversion Hr; subst r; (split; [| split]); try discriminate; try tauto.
  - intros _. eexists. rewrite <- app_assoc. reflexivity.
  - intros _. eexists. reflexivity.
Qed.

Lemma put_saves_live_config_witness :
  exists h,
    history (snd (put Demo.collaborators (Ok (VDict Demo.update)) Demo.live)) =
    h ++ [save_config
            (ledfx_config
               (snd (put Demo.collaborators (Ok (VDict Demo.update)) Demo.live)))].
Proof.
  apply (proj1 (put_saves_live_config Demo.collaborators (VDict Demo.update)
                  Demo.live updated eq_refl)).
  reflexivity.
Defined.

(** ** The merge engine: notifications and failures after validation *)





Lemma validated_keys_allowed
    (E : Collaborators) (config : value) (s : schema) (node : string)
    (r : dict) (k : string) :
  validate_and_trim_config E config s node = Ok r ->
  In k (Dict.keys r) -> allowed E node k.
Proof.
  intros H Hk. pose proof H as H'.
  apply validate_and_trim_config_Ok_inv in H as (f & validated & -> & Hall & _ & _).
  apply (validate_and_trim_config_keys E f s node r k H') in Hk.
  rewrite Forall_forall in Hall. auto.
Qed.

(** X7.  The allow-list is sound: when [validate_and_trim_config] returns,
    every key that was submitted, and so every key of the result, is
    permitted for the namespace or is ['user_presets'], and the schema
    accepted the fragment. *)
Theorem validate_and_trim_config_allowed_only
    (E : Collaborators) (f : dict) (s : schema) (node : string) (r : dict) :
  validate_and_trim_config E (VDict f) s node = Ok r ->
  Forall (allowed E node) (Dict.keys f) /\
  Forall (allowed E node) (Dict.keys r) /\
  is_ok (s (VDict f)) = true.
Proof.
  intros H. split; [| split].
  - apply validate_and_trim_config_Ok_inv in H as (f' & v & Hf & Hall & _ & _).
    now inversion Hf; subst f'.
  - apply Forall_forall. intros k Hk. eapply validated_keys_allowed; eauto.
  - apply validate_and_trim_config_Ok_inv in H as (f' & v & Hf & _ & Hs & _).
    now rewrite Hs.
Qed.

Lemma validate_and_trim_config_allowed_only_witness :
  Forall (allowed Demo.collaborators "core")
    (Dict.keys [("port", VInt 80); ("user_presets", VDict [])]) /\
  Forall (allowed Demo.collaborators "core")
    (Dict.keys [("port", VInt 80); ("user_presets", VDict [])]) /\
  is_ok (Demo.accept_mapping (VDict [("port", VInt 80); ("user_presets", VDict [])]))
  = true.
Proof.
  apply (validate_and_trim_config_allowed_only Demo.collaborators
           [("port", VInt 80); ("user_presets", VDict [])]
           Demo.accept_mapping "core").
  reflexivity.
Defined.

(** X8.  After validation the merge can still fail on the store itself.  If
    the live configuration has no ['audio'] entry, every validated update,
    even an empty one, raises KeyError('audio') and changes nothing.  If it
    has an audio mapping but no ['melbanks'] entry, the call raises
    KeyError('melbanks') with the audio fragment already merged into the
    live configuration. *)
Theorem update_config_missing_namespace
    (E : Collaborators) (config : dict) (l : LedFx) (f : fragments) (live : dict) :
  fst (validate_fragments E (VDict config, l)) = Ok f ->
  ledfx_config l = VDict live ->
  (Dict.get "audio" live = None ->
   update_config E (VDict config, l) =
   (Raise (KeyError "audio"), (VDict (residual config), l))) /\
  (forall a,
      Dict.get "audio" live = Some (VDict a) ->
      Dict.get "melbanks" live = None ->
      update_config E (VDict config, l) =
      (Raise (KeyError "melbanks"),
       (VDict (residual config),
        with_config
          (VDict (Dict.set "audio" (VDict (Dict.update a (audio_config f))) live))
          l))).
Proof.
  intros Hv Hl. rewrite (update_config_run E config l f Hv).
  unfold merge_fragments. split.
  - intros Ha. unfold bind at 1. rewrite on_self_run.
    unfold config_item_update, config_getitem, bind, gets, lift.
    rewrite Hl. simpl. rewrite Ha. reflexivity.
  - intros a Ha Hm. unfold bind at 1.
    rewrite on_self_run, (config_item_update_run "audio" _ live a l Hl Ha).
    simpl fst. simpl snd.
    unfold bind at 1. rewrite on_self_run.
    unfold config_item_update, config_getitem, bind, gets, lift.
    simpl. rewrite DictFacts.get_set_neq by discriminate. rewrite Hm. reflexivity.
Qed.

Lemma update_config_missing_namespace_witness :
  update_config Demo.collaborators
    (VDict [("audio", VDict [("min_volume", VInt 2)])],
     mkLedFx (VDict [("audio", VDict [("sample_rate", VInt 60)])]) AudioSource []) =
  (Raise (KeyError "melbanks"),
   (VDict (residual [("audio", VDict [("min_volume", VInt 2)])]),
    with_config
      (VDict (Dict.set "audio"
                (VDict (Dict.update [("sample_rate", VInt 60)]
                          (audio_config (mkFragments [("min_volume", VInt 2)] [] [] []))))
                [("audio", VDict [("sample_rate", VInt 60)])]))
      (mkLedFx (VDict [("audio", VDict [("sample_rate", VInt 60)])]) AudioSource []))).
Proof.
  apply (proj2 (update_config_missing_namespace Demo.collaborators
           [("audio", VDict [("min_volume", VInt 2)])]
           (mkLedFx (VDict [("audio", VDict [("sample_rate", VInt 60)])]) AudioSource [])
           (mkFragments [("min_volume", VInt 2)] [] [] [])
           [("audio", VDict [("sample_rate", VInt 60)])]
           eq_refl eq_refl)
         [("sample_rate", VInt 60)]).
  - reflexivity.
  - reflexivity.
Defined.

(** X9.  An update that submits nothing changes nothing.  If every
    validated fragment is empty and the live configuration has its audio
    and melbanks mappings, [update_config] returns with the service exactly
    as it was: same live configuration, no collaborator called. *)
Theorem update_config_nothing_submitted
    (E : Collaborators) (config : dict) (l : LedFx) (f : fragments)
    (live a m : dict) :
  fst (validate_fragments E (VDict config, l)) = Ok f ->
  audio_config f = [] -> wled_config f = [] ->
  melbanks_config f = [] -> core_config f = [] ->
  ledfx_config l = VDict live ->
  Dict.get "audio" live = Some (VDict a) ->
  Dict.get "melbanks" live = Some (VDict m) ->
  update_config E (VDict config, l) = (Ok VNull, (VDict (residual config), l)).
Proof.
  intros Hv Hfa Hfw Hfm Hfc Hl Ha Hm.
  rewrite (update_config_run E config l f Hv).
  assert (Hstay : forall name d,
             Dict.get name live = Some (VDict d) ->
             config_item_update name [] l = (Ok tt, l)).
  { intros name d Hd. rewrite (config_item_update_run name [] live d l Hl Hd).
    unfold Dict.update. simpl. rewrite (set_same _ _ _ Hd), <- Hl.
    now rewrite with_config_same. }
  unfold merge_fragments. rewrite Hfa, Hfw, Hfm, Hfc.
  unfold bind at 1. rewrite on_self_run, (Hstay _ _ Ha). simpl fst. simpl snd.
  unfold bind at 1. rewrite on_self_run, (Hstay _ _ Hm). simpl fst. simpl snd.
  unfold bind at 1.
  rewrite on_self_run, (config_update_run [] live l Hl).
  unfold Dict.update. simpl fold_left. rewrite <- Hl, with_config_same.
  simpl fst. simpl snd.
  unfold bind at 1. rewrite on_self_run. simpl wled_merge.
  unfold ret at 1. simpl fst. simpl snd.
  unfold bind at 1. rewrite on_self_run.
  unfold notify_audio, bind, gets, ret. rewrite Hfa, Hfm.
  destruct l as [c au h]. destruct au; reflexivity.
Qed.

Lemma update_config_nothing_submitted_witness :
  update_config Demo.collaborators
    (VDict [("audio", VDict []); ("melbanks", VDict [])], Demo.live) =
  (Ok VNull,
   (VDict (residual [("audio", VDict []); ("melbanks", VDict [])]), Demo.live)).
Proof.
  apply (update_config_nothing_submitted Demo.collaborators
           [("audio", VDict []); ("melbanks", VDict [])] Demo.live
           (mkFragments [] [] [] []) DemoRead.live_entries
           [("sample_rate", VInt 60)] [("max_frequencies", VInt 350)]);
    reflexivity.
Defined.

Lemma residual_nil (config : dict) :
  (forall k, In k (Dict.keys config) ->
             k = "audio"%string \/ k = "wled_preferences"%string
             \/ k = "melbanks"%string) ->
  residual config = [].
Proof.
  intros H. destruct (residual config) as [| [k v] rest] eqn:Hr; auto.
  assert (Hin : In k (Dict.keys (residual config))) by (rewrite Hr; simpl; auto).
  apply In_keys_residual in Hin as (Hin & H1 & H2 & H3).
  destruct (H k Hin) as [-> | [-> | ->]]; congruence.
Qed.

(** X10.  An update that only holds sub-namespace fragments never restarts
    the service.  If every key of the submitted mapping is ['audio'],
    ['wled_preferences'] or ['melbanks'] and [update_config] returns, PUT
    answers "Configuration Updated": it fires the event with an empty
    mapping, saves, and schedules no stop. *)
Theorem put_subnamespaces_never_restart
    (E : Collaborators) (config : dict) (l : LedFx) (v : value) :
  (forall k, In k (Dict.keys config) ->
             k = "audio"%string \/ k = "wled_preferences"%string
             \/ k = "melbanks"%string) ->
  fst (update_config E (VDict config, l)) = Ok v ->
  put E (Ok (VDict config)) l =
  (Ok updated,
   record (save_config (ledfx_config (snd (snd (update_config E (VDict config, l))))))
     (record (fire_event (VDict []))
        (snd (snd (update_config E (VDict config, l)))))).
Proof.
  intros Hkeys Hv.
  destruct (update_config_Ok_mapping E (VDict config) l v Hv)
    as (d & f & Hd & _ & Hx & Hc).
  inversion Hd; subst d. rewrite (residual_nil config Hkeys) in Hx, Hc.
  assert (Hfalse : check_need_restart E (VDict []) = Ok false).
  { revert Hc. unfold check_need_restart, validate_and_trim_config. simpl.
    destruct (CORE_CONFIG_SCHEMA E (VDict [])); simpl; [reflexivity | discriminate]. }
  rewrite put_run.
  destruct (update_config E (VDict config, l)) as [[v' | e] [x l1]];
    [| discriminate].
  simpl in Hx. subst x. simpl fst. simpl snd. rewrite Hfalse. reflexivity.
Qed.

Lemma put_subnamespaces_never_restart_witness :
  put Demo.collaborators
    (Ok (VDict [("audio", VDict [("min_volume", VInt 2)])])) Demo.live =
  (Ok updated,
   record (save_config (ledfx_config (snd (snd (update_config Demo.collaborators
             (VDict [("audio", VDict [("min_volume", VInt 2)])], Demo.live))))))
     (record (fire_event (VDict []))
        (snd (snd (update_config Demo.collaborators
             (VDict [("audio", VDict [("min_volume", VInt 2)])], Demo.live)))))).
Proof.
  apply (put_subnamespaces_never_restart Demo.collaborators
           [("audio", VDict [("min_volume", VInt 2)])] Demo.live VNull).
  - intros k [<- | []]. auto.
  - reflexivity.
Defined.



(** ** Bulk import: what is committed and what gets out *)

(** X12.  What a bulk import installs.  For an import config at the current
    version whose four parts pass their schemas, with a mapping as core
    output, the new live configuration is the core schema's output with the
    ['audio'], ['wled_preferences'] and ['melbanks'] entries set to the
    outputs of their own schemas (applied to the empty mapping when the
    import config has no such entry); every other key is as the core
    schema returned it, defaults included. *)
Theorem post_installs_schema_outputs
    (E : Collaborators) (config : dict) (l : LedFx)
    (ac wc mc : value) (core : dict) :
  version_matches E (VDict config) = Ok true ->
  imported_parts E config = Ok (ac, wc, mc, VDict core) ->
  exists c,
    fst (post E (Ok (VDict config)) l) = Ok imported /\
    ledfx_config (snd (post E (Ok (VDict config)) l)) = VDict c /\
    Dict.get "audio" c = Some ac /\
    Dict.get "wled_preferences" c = Some wc /\
    Dict.get "melbanks" c = Some mc /\
    (forall k, k <> "audio"%string -> k <> "wled_preferences"%string ->
               k <> "melbanks"%string -> Dict.get k c = Dict.get k core).
Proof.
  intros Hv Hp.
  rewrite (post_settled E _ l Hv). unfold try_except.
  rewrite post_commit_dict_run, Hp.
  eexists. simpl. split; [reflexivity | split; [reflexivity |]].
  split; [| split; [| split]].
  - rewrite !DictFacts.get_set_neq by discriminate. apply DictFacts.get_set_eq.
  - rewrite DictFacts.get_set_neq by discriminate. apply DictFacts.get_set_eq.
  - apply DictFacts.get_set_eq.
  - intros k H1 H2 H3. now rewrite !DictFacts.get_set_neq by congruence.
Qed.

Lemma post_installs_schema_outputs_witness :
  exists c,
    fst (post Demo.collaborators
           (Ok (VDict [("configuration_version", VStr "2.0.10");
                       ("audio", VDict [("sample_rate", VInt 30)])]))
           Demo.live) = Ok imported /\
    ledfx_config (snd (post Demo.collaborators
           (Ok (VDict [("configuration_version", VStr "2.0.10");
                       ("audio", VDict [("sample_rate", VInt 30)])]))
           Demo.live)) = VDict c /\
    Dict.get "audio" c = Some (VDict [("sample_rate", VInt 30)]) /\
    Dict.get "wled_preferences" c = Some (VDict []) /\
    Dict.get "melbanks" c = Some (VDict []) /\
    (forall k, k <> "audio"%string -> k <> "wled_preferences"%string ->
               k <> "melbanks"%string ->
               Dict.get k c =
               Dict.get k [("host", VStr "0.0.0.0"); ("port", VInt 8888);
                           ("audio", VDict []); ("melbanks", VDict []);
                           ("wled_preferences", VDict []);
                           ("configuration_version", VStr "2.0.10")]).
Proof.
  apply (post_installs_schema_outputs Demo.collaborators
           [("configuration_version", VStr "2.0.10");
            ("audio", VDict [("sample_rate", VInt 30)])]
           Demo.live).
  - reflexivity.
  - reflexivity.
Defined.

(** X13.  A rejected import has already taken its backup.  When the import
    config is settled and one of the four schemas raises a voluptuous
    error, POST answers internal_error "Error loading config"; the live
    configuration is not replaced and nothing is saved, but the history
    holds the IMPORT backup. *)
Theorem post_schema_error_after_backup
    (E : Collaborators) (config : dict) (l : LedFx) (msg : string) :
  version_matches E (VDict config) = Ok true ->
  imported_parts E config = Raise (MultipleInvalid msg) ->
  post E (Ok (VDict config)) l =
  (Ok (internal_error (Fmt "Error loading config: " (MultipleInvalid msg))
         (Some "error"%string)),
   record (create_backup "IMPORT") l).
Proof.
  intros Hv Hp. rewrite (post_settled E _ l Hv). unfold try_except.
  rewrite post_commit_dict_run, Hp. reflexivity.
Qed.

Lemma post_schema_error_after_backup_witness :
  post Demo.collaborators
    (Ok (VDict [("configuration_version", VStr "2.0.10");
                ("melbanks", VDict [("max_frequencies", VStr "high")])]))
    Demo.live =
  (Ok (internal_error (Fmt "Error loading config: " (MultipleInvalid "expected int"))
         (Some "error"%string)),
   record (create_backup "IMPORT") Demo.live).
Proof.
  apply (post_schema_error_after_backup Demo.collaborators
           [("configuration_version", VStr "2.0.10");
            ("melbanks", VDict [("max_frequencies", VStr "high")])]
           Demo.live "expected int").
  - reflexivity.
  - reflexivity.
Defined.

(** X14.  A config tagged with the current version is never migrated: if
    its ['configuration_version'] is CONFIGURATION_VERSION and that string
    parses, the outcome of POST is the same whatever the migration
    transform is. *)
Theorem post_current_version_skips_migration
    (E : Collaborators) (m : value -> result value) (config : dict) (l : LedFx) :
  Dict.get "configuration_version" config = Some (VStr (CONFIGURATION_VERSION E)) ->
  is_ok (parse_version E (VStr (CONFIGURATION_VERSION E))) = true ->
  post (with_migrate_config E m) (Ok (VDict config)) l = post E (Ok (VDict config)) l.
Proof.
  intros Hg Hp.
  rewrite (post_settled E _ l (version_matches_current E config Hg Hp)).
  rewrite (post_settled (with_migrate_config E m) _ l
             (version_matches_current (with_migrate_config E m) config Hg Hp)).
  reflexivity.
Qed.

Lemma post_current_version_skips_migration_witness :
  post (with_migrate_config Demo.collaborators DemoRead.upgrade)
    (Ok (VDict [("configuration_version", VStr "2.0.10"); ("port", VInt 80)]))
    Demo.live =
  post Demo.collaborators
    (Ok (VDict [("configuration_version", VStr "2.0.10"); ("port", VInt 80)]))
    Demo.live.
Proof.
  apply (post_current_version_skips_migration Demo.collaborators DemoRead.upgrade
           [("configuration_version", VStr "2.0.10"); ("port", VInt 80)] Demo.live).
  - reflexivity.
  - reflexivity.
Defined.

(** X15.  Importing an old config is importing its migration.  When the
    version check fails, the transform succeeds and its output is at the
    current version, POST of the old config does exactly what POST of the
    migrated config does. *)
Theorem post_migrated_like_direct
    (E : Collaborators) (config config' : value) (l : LedFx) :
  version_matches E config = Ok false ->
  migrate_config E config = Ok config' ->
  version_matches E config' = Ok true ->
  post E (Ok config) l = post E (Ok config') l.
Proof.
  intros Hv Hm Hv'. rewrite (post_settled E config' l Hv').
  unfold post, try_except, bind, lift. now rewrite Hv, Hm.
Qed.

Lemma post_migrated_like_direct_witness :
  post (with_migrate_config Demo.collaborators DemoRead.upgrade)
    (Ok (VDict [("configuration_version", VStr "1.9.0"); ("port", VInt 80)]))
    Demo.live =
  post (with_migrate_config Demo.collaborators DemoRead.upgrade)
    (Ok (VDict [("configuration_version", VStr "2.0.10"); ("port", VInt 80)]))
    Demo.live.
Proof.
  apply (post_migrated_like_direct
           (with_migrate_config Demo.collaborators DemoRead.upgrade)).
  - reflexivity.
  - reflexivity.
  - reflexivity.
Defined.

(** X16.  What gets out of POST.  A JSONDecodeError or a voluptuous error
    never leaves the handler, wherever it was raised; every exception that
    does leave it is one the handler does not catch.  A body that is not a
    JSON object is such a case: it raises TypeError, with no backup and no
    change. *)
Theorem post_escaping_exceptions
    (E : Collaborators) (l : LedFx) :
  (forall request_json e,
      fst (post E request_json l) = Raise e ->
      e <> JSONDecodeError /\ forall msg, e <> MultipleInvalid msg) /\
  (forall config,
      is_mapping config = false ->
      post E (Ok config) l = (Raise TypeError, l)).
Proof.
  split.
  - intros request_json e. unfold post, try_except.
    match goal with |- context [match ?b l with _ => _ end] => destruct (b l) as [[r | e0] s] end.
    + discriminate.
    + destruct e0; simpl; intros H; inversion H; subst; split;
        try discriminate; intros; discriminate.
  - intros config H. unfold post, try_except, bind, lift, version_matches.
    destruct config; try discriminate; reflexivity.
Qed.

Lemma post_escaping_exceptions_witness :
  post Demo.collaborators (Ok (VList [VStr "audio"])) Demo.live
  = (Raise TypeError, Demo.live).
Proof.
  apply (proj2 (post_escaping_exceptions Demo.collaborators Demo.live)
           (VList [VStr "audio"])).
  reflexivity.
Defined.

(** ** The read path *)

Lemma str_in_In (k : string) (ks : list string) :
  str_in k ks = true <-> In k ks.
Proof.
  unfold str_in. rewrite existsb_exists. split.
  - intros [x [Hin Hx]]. apply String.eqb_eq in Hx. now subst.
  - intros Hin. exists k. split; auto. apply String.eqb_refl.
Qed.


Lemma project_get_other (E : Collaborators) (l : LedFx) (ks : list string) (acc r : dict) (k : string) :
  project E l ks acc = Ok r -> ~ In k ks -> Dict.get k r = Dict.get k acc.
Proof.
  revert acc. induction ks as [| key ks IH]; simpl; intros acc H Hnin.
  - congruence.
  - destruct (projection E l key) as [x |]; simpl in H; [| discriminate].
    rewrite (IH _ H) by tauto. apply DictFacts.get_set_neq. intros ->. tauto.
Qed.

Lemma project_get (E : Collaborators) (l : LedFx) (ks : list string) (acc r : dict) (k : string) :
  project E l ks acc = Ok r -> In k ks ->
  exists x, projection E l k = Ok x /\ Dict.get k r = Some x.
Proof.
  revert acc. induction ks as [| key ks IH]; simpl; intros acc H Hin; [tauto |].
  destruct (projection E l key) as [x |] eqn:Hx; simpl in H; [| discriminate].
  destruct (in_dec string_dec k ks) as [Hk | Hk]; [eauto |].
  destruct Hin as [-> | Hin]; [| tauto].
  exists x. split; auto.
  rewrite (project_get_other _ _ _ _ _ _ H Hk). apply DictFacts.get_set_eq.
Qed.

Lemma project_keys (E : Collaborators) (l : LedFx) (ks : list string) (acc r : dict) (k : string) :
  project E l ks acc = Ok r ->
  (In k (Dict.keys r) <-> In k (Dict.keys acc) \/ In k ks).
Proof.
  revert acc. induction ks as [| key ks IH]; simpl; intros acc H.
  - inversion H. tauto.
  - destruct (projection E l key) as [x |]; simpl in H; [| discriminate].
    rewrite (IH _ H), DictFacts.In_keys_set. intuition congruence.
Qed.

Section ReadPathFacts.

Variable CORE_CONFIG_KEYS : list string.
Variable set_order : list string -> list string.

Lemma In_selected_keys (keys : list string) (k : string) :
  is_set_order set_order ->
  (In k (selected_keys CORE_CONFIG_KEYS set_order keys) <->
   In k CORE_CONFIG_KEYS /\
   (In k keys \/ forall k', In k' keys -> ~ In k' CORE_CONFIG_KEYS)).
Proof.
  intros Hord. unfold selected_keys.
  destruct (filter (fun k0 => str_in k0 CORE_CONFIG_KEYS) keys)
    as [| k0 both] eqn:Hf.
  - assert (Hnone : forall k', In k' keys -> ~ In k' CORE_CONFIG_KEYS).
    { intros k' Hin Hc.
      assert (Hin' : In k' (filter (fun k0 => str_in k0 CORE_CONFIG_KEYS) keys))
        by (apply filter_In; split; auto; now apply str_in_In).
      rewrite Hf in Hin'. destruct Hin'. }
    tauto.
  - destruct (Hord (k0 :: both)) as [_ Hin]. rewrite Hin, <- Hf, filter_In, str_in_In.
    split; [tauto |]. intros [Hc [Hk | Hnone]]; [tauto |].
    assert (Hk0 : In k0 (filter (fun k1 => str_in k1 CORE_CONFIG_KEYS) keys))
      by (rewrite Hf; simpl; auto).
    apply filter_In in Hk0 as [Hk0 Hc0]. apply str_in_In in Hc0.
    elim (Hnone k0 Hk0 Hc0).
Qed.

Lemma selected_keys_none (keys : list string) :
  (forall k, In k keys -> ~ In k CORE_CONFIG_KEYS) ->
  selected_keys CORE_CONFIG_KEYS set_order keys = CORE_CONFIG_KEYS.
Proof.
  intros Hnone. unfold selected_keys.
  destruct (filter (fun k0 => str_in k0 CORE_CONFIG_KEYS) keys)
    as [| k0 both] eqn:Hf; auto.
  assert (Hk0 : In k0 (filter (fun k1 => str_in k1 CORE_CONFIG_KEYS) keys))
    by (rewrite Hf; simpl; auto).
  apply filter_In in Hk0 as [Hk0 Hc0]. apply str_in_In in Hc0.
  elim (Hnone k0 Hk0 Hc0).
Qed.

Lemma set_update_unhashable (items : list value) :
  (exists item, In item items /\ is_mapping item = true) \/
  (exists item nested, In item items /\ item = VList nested) ->
  set_update items = Raise TypeError.
Proof.
  induction items as [| item items IH]; intros H.
  - destruct H as [(x & [] & _) | (x & nested0 & [] & _)].
  - assert (Hrest :
      (exists item, In item items /\ is_mapping item = true) \/
      (exists item nested, In item items /\ item = VList nested) \/
      is_mapping item = true \/ exists nested, item = VList nested).
    { destruct H as [(x & [<- | Hin] & Hx) | (x & nested0 & [<- | Hin] & Hx)]; eauto 6. }
    destruct item; simpl; try reflexivity;
      try (apply IH;
           destruct Hrest as [H1 | [H1 | [H1 | [nested0 H1]]]]; auto; discriminate).
    rewrite IH; [reflexivity |].
    destruct Hrest as [H1 | [H1 | [H1 | [nested0 H1]]]]; auto; discriminate.
Qed.

End ReadPathFacts.

(** X17.  What GET answers.  When GET returns a mapping, its keys are the
    requested keys that are core configuration keys, or every core
    configuration key if none of the requested ones is (requested names the
    service does not know are dropped silently).  Every value is what lines
    74-81 compute for its key: for a key other than ['audio'], ['melbanks']
    and ['wled_preferences'] the stored value as it is, None when the live
    configuration has no such key. *)
Theorem get_answers_selected_keys
    (E : Collaborators) (CORE_CONFIG_KEYS : list string)
    (set_order : list string -> list string)
    (body : value) (keys : list string) (l : LedFx) (r : dict) :
  is_set_order set_order ->
  wanted body = Ok keys ->
  get E CORE_CONFIG_KEYS set_order (Some (Ok body)) l
  = Ok (bare_request_success r) ->
  (forall k, In k (Dict.keys r) <->
             In k CORE_CONFIG_KEYS /\
             (In k keys \/ forall k', In k' keys -> ~ In k' CORE_CONFIG_KEYS)) /\
  (forall k v, Dict.get k r = Some v -> projection E l k = Ok v) /\
  (forall k v, Dict.get k r = Some v ->
               k <> "audio"%string -> k <> "melbanks"%string ->
               k <> "wled_preferences"%string ->
               exists live,
                 ledfx_config l = VDict live /\
                 v = match Dict.get k live with Some x => x | None => VNull end).
Proof.
  intros Hord Hw Hget. unfold get in Hget. rewrite Hw in Hget. simpl in Hget.
  destruct (project E l (selected_keys CORE_CONFIG_KEYS set_order keys) [])
    as [r' |] eqn:Hp; simpl in Hget; [| discriminate].
  inversion Hget; subst r'.
  assert (Hval : forall k v, Dict.get k r = Some v -> projection E l k = Ok v).
  { intros k v Hg.
    pose proof (DictFacts.get_Some_In _ _ _ Hg) as Hin.
    apply (project_keys E l _ _ _ k Hp) in Hin as [[] | Hin].
    destruct (project_get E l _ _ _ k Hp Hin) as (x & Hx & Hr). congruence. }
  split; [| split; [exact Hval |]].
  - intros k. rewrite (project_keys E l _ _ _ k Hp). simpl.
    rewrite (In_selected_keys CORE_CONFIG_KEYS set_order keys k Hord). tauto.
  - intros k v Hg H1 H2 H3. apply Hval in Hg. unfold projection in Hg.
    destruct (ledfx_config l) as [| | | | | | live]; try discriminate.
    exists live. split; [reflexivity |]. simpl in Hg.
    destruct (String.eqb_spec k "audio"); [congruence |].
    destruct (String.eqb_spec k "melbanks"); [congruence |].
    destruct (String.eqb_spec k "wled_preferences"); [congruence |].
    now inversion Hg.
Qed.

Lemma demo_set_order : is_set_order DemoRead.set_order.
Proof.
  intros members. split.
  - apply NoDup_nodup.
  - intros k. apply nodup_In.
Qed.

Lemma get_answers_selected_keys_witness :
  (forall k, In k (Dict.keys [("port", VInt 8888)]) <->
             In k DemoRead.core_keys /\
             (In k ["port"; "colour"]%string \/
              forall k', In k' ["port"; "colour"]%string -> ~ In k' DemoRead.core_keys)) /\
  (forall k v, Dict.get k [("port", VInt 8888)] = Some v ->
               projection Demo.collaborators Demo.live k = Ok v) /\
  (forall k v, Dict.get k [("port", VInt 8888)] = Some v ->
               k <> "audio"%string -> k <> "melbanks"%string ->
               k <> "wled_preferences"%string ->
               exists live,
                 ledfx_config Demo.live = VDict live /\
                 v = match Dict.get k live with Some x => x | None => VNull end).
Proof.
  apply (get_answers_selected_keys Demo.collaborators DemoRead.core_keys
           DemoRead.set_order (VList [VStr "port"; VInt 7; VStr "colour"])
           ["port"; "colour"]%string Demo.live [("port", VInt 8888)]).
  - exact demo_set_order.
  - reflexivity.
  - reflexivity.
Defined.

(** X18.  Asking GET for nothing it knows is asking for everything.  A body
    whose requested names hold no core configuration key (an object, a
    number, null, an empty list, a list of unknown names) gets the answer of
    a GET without a body. *)
Theorem get_unknown_keys_answer_all
    (E : Collaborators) (CORE_CONFIG_KEYS : list string)
    (set_order : list string -> list string)
    (body : value) (keys : list string) (l : LedFx) :
  wanted body = Ok keys ->
  (forall k, In k keys -> ~ In k CORE_CONFIG_KEYS) ->
  get E CORE_CONFIG_KEYS set_order (Some (Ok body)) l
  = get E CORE_CONFIG_KEYS set_order None l.
Proof.
  intros Hw Hnone. unfold get. rewrite Hw. simpl rbind.
  rewrite (selected_keys_none CORE_CONFIG_KEYS set_order keys Hnone).
  rewrite (selected_keys_none CORE_CONFIG_KEYS set_order []); [reflexivity |].
  intros k [].
Qed.

Lemma get_unknown_keys_answer_all_witness :
  get Demo.collaborators DemoRead.core_keys DemoRead.set_order
    (Some (Ok (VList [VStr "colour"; VInt 3]))) Demo.live
  = get Demo.collaborators DemoRead.core_keys DemoRead.set_order None Demo.live.
Proof.
  apply (get_unknown_keys_answer_all Demo.collaborators DemoRead.core_keys
           DemoRead.set_order (VList [VStr "colour"; VInt 3]) ["colour"]%string).
  - reflexivity.
  - intros k [<- | []]. unfold DemoRead.core_keys. simpl.
    intros H. repeat (destruct H as [H | H]; [discriminate |]). exact H.
Defined.

(** X19.  A list body with a list or an object among its items makes GET
    raise TypeError (the item cannot go into the set of line 62), whatever
    else the list asks for and whatever the live configuration holds; the
    handler does not catch it. *)
Theorem get_unhashable_item
    (E : Collaborators) (CORE_CONFIG_KEYS : list string)
    (set_order : list string -> list string)
    (items : list value) (item : value) (l : LedFx) :
  In item items ->
  is_mapping item = true \/ (exists nested, item = VList nested) ->
  get E CORE_CONFIG_KEYS set_order (Some (Ok (VList items))) l = Raise TypeError.
Proof.
  intros Hin Hitem. unfold get, wanted.
  rewrite set_update_unhashable; [reflexivity |].
  destruct Hitem as [Hm | [nested Hn]]; [left | right]; eauto.
Qed.

Lemma get_unhashable_item_witness :
  get Demo.collaborators DemoRead.core_keys DemoRead.set_order
    (Some (Ok (VList [VStr "port"; VList [VStr "audio"]]))) Demo.live
  = Raise TypeError.
Proof.
  apply (get_unhashable_item Demo.collaborators DemoRead.core_keys
           DemoRead.set_order [VStr "port"; VList [VStr "audio"]]
           (VList [VStr "audio"])).
  - simpl. auto.
  - right. eauto.
Defined.


